(** * A directory summariser: shallow embedding and verification

    The program walks the current working directory twice.  The first walk
    renders an indented outline of the tree; the second appends the contents
    of every text file to the summary document and records (size, path)
    pairs, which are sorted by size and written to the lengths document.

    Python [str] values are modelled by Rocq [string]s holding their UTF-8
    encoding: the strict [utf-8] codec accepts only canonical encodings, so
    decoding followed by encoding is the identity on accepted inputs.
    Python [int] is [Z]; a [count] result is a [nat].

    The platform is POSIX.  Reading a file and asking for its size may
    fail, and may answer differently from one request to the next, but
    every request is answered (no file blocks its reader); writing to the
    two documents succeeds, which takes names that are well-formed UTF-8;
    memory suffices, and the names in the directories do not change while
    the program runs.  Statements that a run returns are statements about
    this model. *)

From Stdlib Require Import List Bool Arith ZArith Lia Ascii String.
From Stdlib Require Import Permutation Sorted.
From Stdlib Require Import DecimalString DecimalZ DecimalPos.
Import ListNotations.

Open Scope string_scope.

(* ================================================================= *)
(** ** Python string primitives *)

Module Str.

(** [s.startswith(p)] *)
Definition startswith (s p : string) : bool := String.prefix p s.

(** [s.endswith("/")], the only use the path functions make of it. *)
Fixpoint endswith_sep (s : string) : bool :=
  match s with
  | EmptyString => false
  | String c EmptyString => Ascii.eqb c "/"
  | String _ s' => endswith_sep s'
  end.

(** [sub in s] *)
Fixpoint contains (sub s : string) : bool :=
  String.prefix sub s ||
  match s with
  | EmptyString => false
  | String _ s' => contains sub s'
  end.

(** [x in l] for a list of strings. *)
Definition mem (x : string) (l : list string) : bool :=
  existsb (String.eqb x) l.

(** [s * n] *)
Fixpoint repeat (s : string) (n : nat) : string :=
  match n with
  | O => EmptyString
  | S n' => s ++ repeat s n'
  end.

(** [new.join(s)] with [new] also at both ends: what [replace] returns
    for an empty [old]. *)
Fixpoint interleave (new s : string) : string :=
  match s with
  | EmptyString => new
  | String c s' => new ++ String c (interleave new s')
  end.

(** Left-to-right scan replacing non-overlapping occurrences of a non-empty
    [old]; [skip] counts the characters of the current occurrence still to
    be dropped. *)
Fixpoint replace_scan (old new : string) (skip : nat) (s : string) : string :=
  match s with
  | EmptyString => EmptyString
  | String c s' =>
      match skip with
      | S k => replace_scan old new k s'
      | O =>
          if String.prefix old s
          then new ++ replace_scan old new (String.length old - 1) s'
          else String c (replace_scan old new 0 s')
      end
  end.

(** [s.replace(old, new)] *)
Definition replace (s old new : string) : string :=
  match old with
  | EmptyString => interleave new s
  | _ => replace_scan old new 0 s
  end.

Fixpoint count_scan (sub : string) (skip : nat) (s : string) : nat :=
  match s with
  | EmptyString => 0
  | String c s' =>
      match skip with
      | S k => count_scan sub k s'
      | O =>
          if String.prefix sub s
          then S (count_scan sub (String.length sub - 1) s')
          else count_scan sub 0 s'
      end
  end.

(** [s.count(sub)]: the number of non-overlapping occurrences. *)
Definition count (s sub : string) : nat :=
  match sub with
  | EmptyString => S (String.length s)
  | _ => count_scan sub 0 s
  end.

(** [s.split("/")] *)
Fixpoint split_sep (s : string) : list string :=
  match s with
  | EmptyString => [EmptyString]
  | String c s' =>
      if Ascii.eqb c "/" then EmptyString :: split_sep s'
      else match split_sep s' with
           | [] => [String c EmptyString]
           | w :: ws => String c w :: ws
           end
  end.

(** The concatenation of a list of strings. *)
Definition cat (l : list string) : string :=
  fold_right String.append EmptyString l.

(** [str(n)] and the formatting of an [int] in an f-string. *)
Definition of_int (n : Z) : string := NilZero.string_of_int (Z.to_int n).

End Str.

(* ================================================================= *)
(** ** [os.path] on POSIX *)

Module Path.

Definition sep : string := "/".

(** [os.path.join(a, b)] *)
Definition join (a b : string) : string :=
  if Str.startswith b sep then b
  else if (String.eqb a EmptyString || Str.endswith_sep a)%bool then a ++ b
  else a ++ sep ++ b.

Fixpoint has_sep (p : string) : bool :=
  match p with
  | EmptyString => false
  | String c p' => Ascii.eqb c "/" || has_sep p'
  end.

(** [os.path.basename(p)]: what follows the last separator. *)
Fixpoint basename (p : string) : string :=
  match p with
  | EmptyString => EmptyString
  | String c p' =>
      if has_sep p' then basename p'
      else if Ascii.eqb c "/" then p' else p
  end.

(** The components of [os.path.normpath(p)] for an absolute [p]: empty
    components and ["."] are dropped, [".."] removes the component before
    it and is itself dropped at the root. *)
Definition norm_step (acc : list string) (c : string) : list string :=
  if (String.eqb c EmptyString || String.eqb c ".")%bool then acc
  else if String.eqb c ".." then removelast acc
  else acc ++ [c].

Definition norm_comps (p : string) : list string :=
  fold_left norm_step (Str.split_sep p) [].

(** Length of the longest common prefix of two component lists. *)
Fixpoint common_len (l1 l2 : list string) : nat :=
  match l1, l2 with
  | x :: l1', y :: l2' => if String.eqb x y then S (common_len l1' l2') else 0
  | _, _ => 0
  end.

(** [os.path.join] spread over the elements of a non-empty [l]. *)
Definition join_all (l : list string) : string :=
  match l with
  | [] => EmptyString
  | x :: l' => fold_left join l' x
  end.

(** [os.path.relpath(path, start)] for absolute [path] and [start]. *)
Definition relpath (path start : string) : string :=
  let start_list := norm_comps start in
  let path_list := norm_comps path in
  let i := common_len start_list path_list in
  let rel_list :=
    (List.repeat ".." (List.length start_list - i) ++ skipn i path_list)%list in
  match rel_list with
  | [] => "."
  | _ => join_all rel_list
  end.

End Path.

(* ================================================================= *)
(** ** Decoding text *)

Module Codec.

Definition byte_in (lo hi : N) (c : ascii) : bool :=
  (N.leb lo (N_of_ascii c) && N.leb (N_of_ascii c) hi)%bool.

(** A continuation byte, [0x80 .. 0xBF]. *)
Definition cont (c : ascii) : bool := byte_in 128 191 c.

(** Well-formed UTF-8 byte sequences, as the strict [utf-8] codec accepts
    them: shortest form only, no surrogates, nothing above U+10FFFF. *)
Fixpoint utf8_valid (s : string) : bool :=
  match s with
  | EmptyString => true
  | String b0 s1 =>
    if byte_in 0 127 b0 then utf8_valid s1 else
    match s1 with
    | EmptyString => false
    | String b1 s2 =>
      if byte_in 194 223 b0 then cont b1 && utf8_valid s2 else
      match s2 with
      | EmptyString => false
      | String b2 s3 =>
        if byte_in 224 224 b0
        then byte_in 160 191 b1 && cont b2 && utf8_valid s3
        else if (byte_in 225 236 b0 || byte_in 238 239 b0)%bool
        then cont b1 && cont b2 && utf8_valid s3
        else if byte_in 237 237 b0
        then byte_in 128 159 b1 && cont b2 && utf8_valid s3
        else
        match s3 with
        | EmptyString => false
        | String b3 s4 =>
          if byte_in 240 240 b0
          then byte_in 144 191 b1 && cont b2 && cont b3 && utf8_valid s4
          else if byte_in 241 243 b0
          then cont b1 && cont b2 && cont b3 && utf8_valid s4
          else if byte_in 244 244 b0
          then byte_in 128 143 b1 && cont b2 && cont b3 && utf8_valid s4
          else false
        end
      end
    end
  end.

Definition LF : ascii := "010"%char.
Definition CR : ascii := "013"%char.

(** Text mode with the default [newline=None]: on reading, a carriage
    return with or without a following line feed becomes a line feed.  On
    writing, a line feed becomes [os.linesep], itself a line feed on
    POSIX. *)
Fixpoint universal_newlines (s : string) : string :=
  match s with
  | EmptyString => EmptyString
  | String c s' =>
      if Ascii.eqb c CR then
        match s' with
        | String c' s'' =>
            if Ascii.eqb c' LF then String LF (universal_newlines s'')
            else String LF (universal_newlines s')
        | EmptyString => String LF EmptyString
        end
      else String c (universal_newlines s')
  end.

End Codec.

Definition nl : string := String Codec.LF EmptyString.

(** Three double quotes, the delimiter of a content block. *)
Definition quotes3 : string :=
  String "034" (String "034" (String "034" EmptyString)).

(* ================================================================= *)
(** ** Exceptions, the environment and the output store *)

(** The exceptions opening, reading, decoding and measuring a file raise;
    [IOError] is [OSError]. *)
Inductive exn : Type :=
| UnicodeDecodeError
| OSError (errno : nat).

Inductive outcome (A : Type) : Type :=
| Ret (a : A)
| Raise (e : exn).
Arguments Ret {A} a.
Arguments Raise {A} e.

(** What the operating system answers to one request. *)
Inductive answer (A : Type) : Type :=
| Fails (errno : nat)
| Gives (a : A).
Arguments Fails {A} errno.
Arguments Gives {A} a.

(** Directory entries as [os.walk] sorts them: [File] is any entry that is
    not a directory; [Dir] a directory it enters; [Closed] a directory it
    lists in [dirs] and yields nothing for (a symbolic link to a directory,
    or a directory whose listing is refused, the error being ignored). *)
#[local] Set Warnings "-register-all".
Inductive node : Type :=
| File (name : string)
| Dir (name : string) (entries : list node)
| Closed (name : string).

(** The environment of one run.  [listing] holds the entries below [cwd]
    as both walks find them.  A file is opened by [is_text_file], measured
    by [os.path.getsize] and opened again by [append_file_content]; the
    three answers are independent, since the file may change in between. *)
Record world : Type := {
  cwd : string;
  listing : list node;
  read_classify : string -> answer string;
  stat_size : string -> answer Z;
  read_append : string -> answer string
}.

(** Output files by name; [None] is a file that does not exist. *)
Definition store : Type := string -> option string.

Definition upd (s : store) (name text : string) : store :=
  fun n => if String.eqb n name then Some text else s n.

Definition content (s : store) (name : string) : string :=
  match s name with
  | Some text => text
  | None => EmptyString
  end.

(** Computations that write to the store and may raise. *)
Definition M (A : Type) : Type := store -> store * outcome A.

Definition ret {A} (a : A) : M A := fun s => (s, Ret a).

Definition bind {A B} (m : M A) (k : A -> M B) : M B :=
  fun s =>
    match m s with
    | (s', Ret a) => k a s'
    | (s', Raise e) => (s', Raise e)
    end.

Definition lift {A} (o : outcome A) : M A := fun s => (s, o).

Notation "x <- m ;; k" := (bind m (fun x => k))
  (at level 61, m at next level, right associativity).
Notation "m ;; k" := (bind m (fun _ => k))
  (at level 61, right associativity).

(** [open(name, 'w')]: create or truncate. *)
Definition open_w (name : string) : M unit :=
  fun s => (upd s name EmptyString, Ret tt).

(** [open(name, 'a')]: create when missing, keep the contents otherwise. *)
Definition open_a (name : string) : M unit :=
  fun s => (upd s name (content s name), Ret tt).

(** [out.write(text)] on a file opened by one of the above; the text is in
    the file once the [with] block is left, also when it is left by an
    exception. *)
Definition write (name text : string) : M unit :=
  fun s => (upd s name (content s name ++ text), Ret tt).

(** A [for] loop threading the variables it assigns. *)
Fixpoint for_each {A S} (l : list A) (body : A -> S -> M S) (acc : S) : M S :=
  match l with
  | [] => ret acc
  | x :: l' => acc' <- body x acc ;; for_each l' body acc'
  end.

(** [open(path, 'r', encoding='utf-8')] followed by [read()]. *)
Definition read_text (a : answer string) : outcome string :=
  match a with
  | Fails errno => Raise (OSError errno)
  | Gives bytes =>
      if Codec.utf8_valid bytes then Ret (Codec.universal_newlines bytes)
      else Raise UnicodeDecodeError
  end.

(** [os.path.getsize(path)] *)
Definition getsize (a : answer Z) : outcome Z :=
  match a with
  | Fails errno => Raise (OSError errno)
  | Gives n => Ret n
  end.

(* ================================================================= *)
(** ** [os.walk], top-down *)

Definition triple : Type := string * list string * list string.

Definition dir_names (es : list node) : list string :=
  flat_map (fun e => match e with
                     | File _ => []
                     | Dir n _ => [n]
                     | Closed n => [n]
                     end) es.

Definition file_names (es : list node) : list string :=
  flat_map (fun e => match e with
                     | File n => [n]
                     | Dir _ _ => []
                     | Closed _ => []
                     end) es.

(** What [os.walk] yields on entering the entry [e] of the directory
    [parent], when the loop body replaces [dirs] in place by the names
    [keep] accepts: the walk enters exactly the accepted directories, in
    listing order, parent before children.  A triple carries [dirs] as
    yielded, before the body prunes it. *)
Fixpoint enter (keep : string -> bool) (parent : string) (e : node)
  : list triple :=
  match e with
  | Dir n sub =>
      if keep n then
        let top := Path.join parent n in
        (top, dir_names sub, file_names sub) :: flat_map (enter keep top) sub
      else []
  | File _ => []
  | Closed _ => []
  end.

(** [os.walk(top)] for a directory [top] holding the entries [es]. *)
Definition walk (keep : string -> bool) (top : string) (es : list node)
  : list triple :=
  (top, dir_names es, file_names es) :: flat_map (enter keep top) es.

(* ================================================================= *)
(** ** The program *)

Definition is_text_file (w : world) (filepath : string) : outcome bool :=
  match read_text (read_classify w filepath) with
  | Ret _ => Ret true
  | Raise UnicodeDecodeError => Ret false
  | Raise (OSError _) => Ret false
  end.

Definition should_skip_item (item_name identifier : string) : bool :=
  Str.startswith item_name "." || Str.contains identifier item_name.

(** The filter both walks assign to [dirs]. *)
Definition keep_dir (skip_items : list string) (d : string) : bool :=
  negb (Str.startswith d ".") && negb (Str.mem d skip_items).

(** The test both walks apply to a file name, as the first writes it. *)
Definition keep_file (identifier : string) (skip_items : list string)
  (f : string) : bool :=
  negb (should_skip_item f identifier) && negb (Str.mem f skip_items).

(** [root.replace(startpath, '').count(os.sep)] *)
Definition level_of (startpath root : string) : nat :=
  Str.count (Str.replace root startpath EmptyString) Path.sep.

(** [' ' * 4 * level] *)
Definition indent_of (level : nat) : string :=
  Str.repeat (Str.repeat " " 4) level.

(** One iteration of the loop of [create_directory_tree]. *)
Definition tree_step (startpath identifier : string)
  (skip_items : list string) (tree : string) (t : triple) : string :=
  let '(root, dirs, files) := t in
  let level := level_of startpath root in
  let indent := indent_of level in
  let basename := Path.basename root in
  if negb (Str.mem basename skip_items) && negb (Str.startswith basename ".")
  then
    let tree := tree ++ indent ++ basename ++ "/" ++ nl in
    let subindent := indent_of (level + 1) in
    fold_left
      (fun tree f =>
         if keep_file identifier skip_items f
         then tree ++ subindent ++ f ++ nl
         else tree)
      files tree
  else tree.

Definition create_directory_tree (w : world) (startpath identifier : string)
  (skip_items : list string) : string :=
  fold_left (tree_step startpath identifier skip_items)
    (walk (keep_dir skip_items) startpath (listing w)) EmptyString.

Definition append_file_content (w : world) (filepath output_file : string)
  : M unit :=
  open_a output_file ;;
  let relative_path := Path.relpath filepath (cwd w) in
  write output_file
    (nl ++ nl ++ nl ++ relative_path ++ nl ++ quotes3 ++ nl) ;;
  text <- lift (read_text (read_append w filepath)) ;;
  write output_file text ;;
  write output_file (nl ++ quotes3 ++ nl).

(** [now] is [datetime.datetime.now()] already formatted. *)
Definition generate_output_filenames (base_name now : string)
  : string * string :=
  let timestamp := now in
  let identifier := "29ph50JZ7" in
  let output_filename :=
    base_name ++ "_" ++ timestamp ++ "_" ++ identifier ++ "_summary.txt" in
  let top_files_list_filename :=
    base_name ++ "_" ++ timestamp ++ "_" ++ identifier ++ "_lengths.txt" in
  (output_filename, top_files_list_filename).

Definition record : Type := Z * string.

(** [list.sort(reverse=True, key=...)]: a stable sort, so records with
    equal keys keep their order; insertion from the right realises it. *)
Fixpoint insert_desc (x : record) (l : list record) : list record :=
  match l with
  | [] => [x]
  | y :: l' =>
      if (fst y <=? fst x)%Z then x :: l else y :: insert_desc x l'
  end.

Fixpoint sort_desc (l : list record) : list record :=
  match l with
  | [] => []
  | x :: l' => insert_desc x (sort_desc l')
  end.

(** [sum(length for length, _ in file_lengths)] *)
Definition sum_lengths (file_lengths : list record) : Z :=
  fold_left Z.add (map fst file_lengths) 0%Z.

(** The body of the inner loop of the second walk in [main], threading
    [file_lengths]. *)
Definition visit_file (w : world) (identifier : string)
  (skip_items : list string) (output_filename root file : string)
  (file_lengths : list record) : M (list record) :=
  if should_skip_item file identifier || Str.mem file skip_items
  then ret file_lengths
  else
    let filepath := Path.join root file in
    text <- lift (is_text_file w filepath) ;;
    if (text : bool) then
      file_length <- lift (getsize (stat_size w filepath)) ;;
      let file_lengths := (file_lengths ++ [(file_length, filepath)])%list in
      append_file_content w filepath output_filename ;;
      ret file_lengths
    else ret file_lengths.

(** The second walk in [main]: the loop over [os.walk(start_directory)]
    that fills [file_lengths]. *)
Definition collect (w : world) (start_directory identifier : string)
  (skip_items : list string) (output_filename : string)
  : M (list record) :=
  for_each (walk (keep_dir skip_items) start_directory (listing w))
    (fun '(root, dirs, files) file_lengths =>
       for_each files
         (visit_file w identifier skip_items output_filename root)
         file_lengths)
    [].

(** The last block of [main]: writing the lengths document. *)
Definition write_lengths (w : world) (top_files_list_filename : string)
  (total_length : Z) (file_lengths : list record) : M unit :=
  open_w top_files_list_filename ;;
  write top_files_list_filename
    ("Total Length: " ++ Str.of_int total_length ++ nl ++ nl) ;;
  for_each file_lengths
    (fun '(length, filepath) (_ : unit) =>
       let relative_path := Path.relpath filepath (cwd w) in
       write top_files_list_filename
         (relative_path ++ nl ++ Str.of_int length ++ nl ++ nl))
    tt.

Definition main (w : world) (now : string) : M unit :=
  let start_directory := cwd w in
  let base_name := "output" in
  let identifier := "29ph50JZ7" in
  let '(output_filename, top_files_list_filename) :=
    generate_output_filenames base_name now in
  let skip_items := ["Vm.json"; "VmSafe.json"] in
  open_w output_filename ;;
  let directory_tree :=
    create_directory_tree w start_directory identifier skip_items in
  write output_filename directory_tree ;;
  file_lengths <-
    collect w start_directory identifier skip_items output_filename ;;
  let file_lengths := sort_desc file_lengths in
  let total_length := sum_lengths file_lengths in
  write_lengths w top_files_list_filename total_length file_lengths.

(* ================================================================= *)
(** ** Notions the statements use *)

Definition run_identifier : string := "29ph50JZ7".
Definition run_skip_items : list string := ["Vm.json"; "VmSafe.json"].

Definition summary_name (now : string) : string :=
  fst (generate_output_filenames "output" now).
Definition lengths_name (now : string) : string :=
  snd (generate_output_filenames "output" now).

(** The outline the first walk writes. *)
Definition tree_of (w : world) : string :=
  create_directory_tree w (cwd w) run_identifier run_skip_items.

(** The triples of the walks of [main]. *)
Definition visited (w : world) : list triple :=
  walk (keep_dir run_skip_items) (cwd w) (listing w).

(** The paths the second walk hands to [is_text_file] for one triple. *)
Definition files_of (t : triple) : list string :=
  let '(root, _, files) := t in
  map (Path.join root)
    (filter (keep_file run_identifier run_skip_items) files).

(** The paths the second walk hands to [is_text_file], in order. *)
Definition candidates (w : world) : list string :=
  flat_map files_of (visited w).

(** What one iteration of the first walk adds to the outline. *)
Definition tree_chunk (startpath : string) (t : triple) : string :=
  tree_step startpath run_identifier run_skip_items EmptyString t.

Definition is_text (w : world) (p : string) : bool :=
  match is_text_file w p with
  | Ret b => b
  | Raise _ => false
  end.

(** The candidates classified as text, in discovery order. *)
Definition texts (w : world) : list string :=
  filter (is_text w) (candidates w).

Definition header (w : world) (p : string) : string :=
  nl ++ nl ++ nl ++ Path.relpath p (cwd w) ++ nl ++ quotes3 ++ nl.

Definition trailer : string := nl ++ quotes3 ++ nl.

Definition text_of (w : world) (p : string) : string :=
  match read_text (read_append w p) with
  | Ret t => t
  | Raise _ => EmptyString
  end.

(** The content block of a file whose second reading succeeds. *)
Definition block (w : world) (p : string) : string :=
  header w p ++ text_of w p ++ trailer.

Definition size_of (w : world) (p : string) : Z :=
  match stat_size w p with
  | Gives n => n
  | Fails _ => 0%Z
  end.

Definition record_of (w : world) (p : string) : record := (size_of w p, p).

(** The exception that handling the text file [p] ends in, with what the
    summary document has received for [p] by then. *)
Definition failure (w : world) (p : string) : option (exn * string) :=
  match stat_size w p with
  | Fails errno => Some (OSError errno, EmptyString)
  | Gives _ =>
      match read_text (read_append w p) with
      | Raise e => Some (e, header w p)
      | Ret _ => None
      end
  end.

(** What handling the text files [ps] in turn appends to the summary
    document, and the exception that stops it, if any. *)
Fixpoint run_texts (w : world) (ps : list string) : string * option exn :=
  match ps with
  | [] => (EmptyString, None)
  | p :: ps' =>
      match failure w p with
      | Some (e, part) => (part, Some e)
      | None =>
          let '(t, r) := run_texts w ps' in (block w p ++ t, r)
      end
  end.

(** One block of the lengths document. *)
Definition entry (w : world) (r : record) : string :=
  Path.relpath (snd r) (cwd w) ++ nl ++ Str.of_int (fst r) ++ nl ++ nl.

Definition lengths_text (w : world) (total : Z) (recs : list record)
  : string :=
  "Total Length: " ++ Str.of_int total ++ nl ++ nl
  ++ Str.cat (map (entry w) recs).

(** The records of a completed run, sorted. *)
Definition listed (w : world) : list record :=
  sort_desc (map (record_of w) (texts w)).

(** A text made of lines, each closed by a line feed. *)
Definition unlines (l : list string) : string :=
  Str.cat (map (fun x => x ++ nl) l).

(** Stores that agree everywhere but at [out]. *)
Definition same_but (out : string) (s s' : store) : Prop :=
  forall n, n <> out -> s' n = s n.

(** The body of the second walk for a file classified as text. *)
Definition process (w : world) (output_filename filepath : string)
  (file_lengths : list record) : M (list record) :=
  file_length <- lift (getsize (stat_size w filepath)) ;;
  let file_lengths := (file_lengths ++ [(file_length, filepath)])%list in
  append_file_content w filepath output_filename ;;
  ret file_lengths.

(** The file system below the root: [dir_at es comps es'] when following
    the directory names [comps] from a directory holding [es] leads to a
    directory holding [es']. *)
Inductive dir_at : list node -> list string -> list node -> Prop :=
| dir_here (es : list node) : dir_at es [] es
| dir_below (es : list node) (n : string) (sub : list node)
    (comps : list string) (es' : list node) :
    In (Dir n sub) es -> dir_at sub comps es' -> dir_at es (n :: comps) es'.

(** The path of the directory reached from [start] along [comps], as
    [os.walk] builds it. *)
Definition path_of (start : string) (comps : list string) : string :=
  fold_left Path.join comps start.

(** The names the walks let through: a directory below the root is
    entered, a file is listed and read. *)
Definition dir_ok (n : string) : Prop :=
  Str.startswith n "." = false /\ ~ In n run_skip_items.

Definition file_ok (n : string) : Prop :=
  Str.startswith n "." = false
  /\ Str.contains run_identifier n = false
  /\ ~ In n run_skip_items.

(** The lines of the outline: the line of the walked directory [root], or
    the line of its file [f]. *)
Inductive line : Type :=
| DirLine (root : string)
| FileLine (root f : string).

Definition render_line (startpath : string) (l : line) : string :=
  match l with
  | DirLine root =>
      indent_of (level_of startpath root) ++ Path.basename root ++ "/" ++ nl
  | FileLine root f =>
      indent_of (level_of startpath root + 1) ++ f ++ nl
  end.

Definition lines_of (t : triple) : list line :=
  let '(root, _, files) := t in
  if negb (Str.mem (Path.basename root) run_skip_items)
     && negb (Str.startswith (Path.basename root) ".")
  then DirLine root
       :: map (FileLine root)
            (filter (keep_file run_identifier run_skip_items) files)
  else [].

Definition tree_lines (w : world) : list line :=
  flat_map lines_of (visited w).

(** [root] is a directory of the file system reached from the start
    directory through directories that are neither hidden nor in the skip
    set, and [es] are its entries. *)
Definition open_dir (w : world) (root : string) (es : list node) : Prop :=
  exists comps,
    root = path_of (cwd w) comps
    /\ dir_at (listing w) comps es
    /\ Forall dir_ok comps.

Definition line_ok (w : world) (l : line) : Prop :=
  match l with
  | DirLine root => exists es, open_dir w root es
  | FileLine root f =>
      exists es, open_dir w root es /\ In (File f) es /\ file_ok f
  end.

(** [p] is the path of a file that is let through, in a directory reached
    through directories that are let through. *)
Definition accepted (w : world) (p : string) : Prop :=
  exists root es f,
    open_dir w root es /\ In (File f) es /\ file_ok f
    /\ p = Path.join root f.

(** The path of the directory reached along [comps], less the start. *)
Fixpoint below_start (comps : list string) : string :=
  match comps with
  | [] => EmptyString
  | c :: comps' => "/" ++ c ++ below_start comps'
  end.

(** [a] may stand before [b] in the lengths document. *)
Definition not_smaller (a b : record) : Prop := (fst b <= fst a)%Z.

Definition has_size (k : Z) (r : record) : bool := (fst r =? k)%Z.

(** Every request the second walk makes for the text file [p] succeeds. *)
Definition handled (w : world) (p : string) : Prop := failure w p = None.

(* ================================================================= *)
(** ** Example environments *)

Definition no_files : store := fun _ => None.

Definition sample_now : string := "2024_01_02_03_04_05".

(** A file system at rest: every request for a path finds the same bytes. *)
Definition at_rest (start : string) (es : list node)
  (bytes : string -> answer string) : world :=
  {| cwd := start;
     listing := es;
     read_classify := bytes;
     stat_size := fun p =>
       match bytes p with
       | Gives b => Gives (Z.of_nat (String.length b))
       | Fails errno => Fails errno
       end;
     read_append := bytes |}.

Definition scenario_bytes (p : string) : answer string :=
  if String.eqb p "/home/user/project/a.txt" then Gives "hello"
  else if String.eqb p "/home/user/project/sub/b.txt" then Gives "world!"
  else if String.eqb p "/home/user/project/.hidden" then Gives "secret"
  else Fails 2.

(** A directory with [a.txt], [.hidden] and [sub/b.txt], as the walks
    find it: with the summary document of the run and the program. *)
Definition scenario_world : world :=
  at_rest "/home/user/project"
    [File "a.txt"; File ".hidden"; Dir "sub" [File "b.txt"];
     File "output_2024_01_02_03_04_05_29ph50JZ7_summary.txt";
     File "pythonSummary29ph50JZ7.py"]
    scenario_bytes.

(** A file that is removed between its classification and its second
    reading. *)
Definition vanishing_world : world :=
  {| cwd := "/home/user/project";
     listing := [File "a.txt"; File "b.txt"];
     read_classify := fun _ => Gives "hello";
     stat_size := fun _ => Gives 5%Z;
     read_append := fun p =>
       if String.eqb p "/home/user/project/a.txt" then Gives "hello"
       else Fails 2 |}.

(* ================================================================= *)
(** ** Well-formed file systems *)

(** A name a directory entry can have. *)
Definition valid_name (n : string) : bool :=
  negb (String.eqb n EmptyString) && negb (Path.has_sep n)
  && negb (String.eqb n ".") && negb (String.eqb n "..").

Definition node_name (e : node) : string :=
  match e with
  | File n => n
  | Dir n _ => n
  | Closed n => n
  end.

Fixpoint distinct (l : list string) : bool :=
  match l with
  | [] => true
  | x :: l' => negb (Str.mem x l') && distinct l'
  end.

(** Valid names throughout, and no name twice in one directory. *)
Fixpoint wf_node (e : node) : bool :=
  valid_name (node_name e)
  && match e with
     | Dir _ sub => distinct (map node_name sub) && forallb wf_node sub
     | File _ => true
     | Closed _ => true
     end.

Definition well_formed (w : world) : bool :=
  distinct (map node_name (listing w)) && forallb wf_node (listing w).

(** The files both walks let through, by their names from the root down:
    those found on entering [e], and those of a directory holding [es]. *)
Fixpoint files_below (keep keepf : string -> bool) (e : node)
  : list (list string) :=
  match e with
  | Dir n sub =>
      if keep n then
        map (cons n)
          (map (fun f => [f]) (filter keepf (file_names sub))
           ++ flat_map (files_below keep keepf) sub)
      else []
  | File _ => []
  | Closed _ => []
  end.

Definition files_in (keep keepf : string -> bool) (es : list node)
  : list (list string) :=
  map (fun f => [f]) (filter keepf (file_names es))
  ++ flat_map (files_below keep keepf) es.

(** A hidden start directory holding a file and a directory whose name
    contains the identifier. *)
Definition dotfiles_world : world :=
  at_rest "/home/user/.dotfiles"
    [File "vimrc"; Dir "out29ph50JZ7" [File "b.txt"]]
    (fun p =>
       if String.eqb p "/home/user/.dotfiles/vimrc" then Gives "hello"
       else Gives "world!").

(** A start directory holding a directory of its own name. *)
Definition app_world : world :=
  at_rest "/app" [Dir "app" [File "main.py"]] (fun _ => Gives "pass").

(* ================================================================= *)
(** ** Further notions *)

(** A file whose name carries the identifier: a document of this run or
    of an earlier one, or the program. *)
Definition own_output (e : node) : bool :=
  match e with
  | File n => Str.contains run_identifier n
  | Dir _ _ => false
  | Closed _ => false
  end.

(** A listing less the files whose names carry the identifier. *)
Definition without_outputs (es : list node) : list node :=
  filter (fun e => negb (own_output e)) es.

(** Bytes below 128 only. *)
Fixpoint ascii_only (s : string) : bool :=
  match s with
  | EmptyString => true
  | String c s' => Codec.byte_in 0 127 c && ascii_only s'
  end.


(** The bytes [0xC0], [0xC1] and [0xF5] to [0xFF]. *)
Definition never_in_utf8 (c : ascii) : bool :=
  Codec.byte_in 192 193 c || Codec.byte_in 245 255 c.

Fixpoint has_byte (p : ascii -> bool) (s : string) : bool :=
  match s with
  | EmptyString => false
  | String c s' => p c || has_byte p s'
  end.

(** A file that is removed between its classification and the request
    for its size. *)
Definition unmeasurable_world : world :=
  {| cwd := "/home/user/project";
     listing := [File "a.txt"; File "b.txt"];
     read_classify := fun _ => Gives "hello";
     stat_size := fun p =>
       if String.eqb p "/home/user/project/a.txt" then Gives 5%Z
       else Fails 2;
     read_append := fun _ => Gives "hello" |}.

(** The scenario's directory before any run, and after a first run has
    left its two documents. *)
Definition before_first_run : world :=
  at_rest "/home/user/project"
    [File "a.txt"; File ".hidden"; Dir "sub" [File "b.txt"]]
    scenario_bytes.

Definition after_first_run : world :=
  at_rest "/home/user/project"
    [File "output_2024_01_02_03_04_05_29ph50JZ7_lengths.txt";
     File "a.txt"; File ".hidden";
     File "output_2024_01_02_03_04_05_29ph50JZ7_summary.txt";
     Dir "sub" [File "b.txt"]]
    scenario_bytes.

(** A file of bytes that are no text next to a text file. *)
Definition binary_world : world :=
  at_rest "/home/user/project" [File "logo.png"; File "a.txt"]
    (fun p =>
       if String.eqb p "/home/user/project/a.txt" then Gives "hello"
       else Gives (String "137" (String "255" EmptyString))).


(* ================================================================= *)
(** ** The primitives on examples *)

Example replace_all_occurrences :
  Str.replace "/a/a/b" "/a" EmptyString = "/b".
Proof. reflexivity. Qed.

Example replace_is_not_overlapping :
  Str.replace "aaa" "aa" "x" = "xa".
Proof. reflexivity. Qed.

Example replace_empty_old :
  Str.replace "ab" EmptyString "-" = "-a-b-".
Proof. reflexivity. Qed.

Example count_separators :
  Str.count "/x/y" Path.sep = 2.
Proof. reflexivity. Qed.

Example split_keeps_empty_pieces :
  Str.split_sep "/a//b" = [EmptyString; "a"; EmptyString; "b"].
Proof. reflexivity. Qed.

Example basename_of_root : Path.basename "/" = EmptyString.
Proof. reflexivity. Qed.

Example basename_of_path : Path.basename "/home/u/proj" = "proj".
Proof. reflexivity. Qed.

Example join_plain : Path.join "/home/u" "proj" = "/home/u/proj".
Proof. reflexivity. Qed.

Example join_at_root : Path.join "/" "etc" = "/etc".
Proof. reflexivity. Qed.

Example relpath_below :
  Path.relpath "/home/u/proj/sub/b.txt" "/home/u/proj" = "sub/b.txt".
Proof. reflexivity. Qed.

Example relpath_from_root : Path.relpath "/etc/passwd" "/" = "etc/passwd".
Proof. reflexivity. Qed.

Example of_int_examples :
  Str.of_int 0 = "0" /\ Str.of_int 11 = "11" /\ Str.of_int (-3) = "-3".
Proof. repeat split; reflexivity. Qed.

(* ================================================================= *)
(** ** Facts about strings *)

Lemma append_nil_right (s : string) : s ++ EmptyString = s.
Proof. induction s as [|c s IH]; simpl; [reflexivity | now rewrite IH]. Qed.

Lemma append_assoc (a b c : string) : (a ++ b) ++ c = a ++ (b ++ c).
Proof. induction a as [|x a IH]; simpl; [reflexivity | now rewrite IH]. Qed.

Lemma append_cancel_l (a b c : string) : a ++ b = a ++ c -> b = c.
Proof.
  induction a as [|x a IH]; simpl; intro H; [exact H|].
  injection H as H. now apply IH.
Qed.

Lemma cat_app (l1 l2 : list string) :
  Str.cat (l1 ++ l2) = Str.cat l1 ++ Str.cat l2.
Proof.
  induction l1 as [|x l1 IH]; simpl; [reflexivity|].
  now rewrite IH, append_assoc.
Qed.

Lemma cat_In (l : list string) (x : string) :
  In x l -> exists pre post, Str.cat l = pre ++ x ++ post.
Proof.
  intro H. apply in_split in H. destruct H as (l1 & l2 & ->).
  exists (Str.cat l1), (Str.cat l2). now rewrite cat_app.
Qed.

(* ================================================================= *)
(** ** The output store *)

Lemma upd_same (s : store) (name text : string) :
  upd s name text name = Some text.
Proof. unfold upd. now rewrite String.eqb_refl. Qed.

Lemma upd_other (s : store) (name text n : string) :
  n <> name -> upd s name text n = s n.
Proof. unfold upd. intro H. apply String.eqb_neq in H. now rewrite H. Qed.

Lemma same_but_refl (out : string) (s : store) : same_but out s s.
Proof. intros n _. reflexivity. Qed.

Lemma same_but_trans (out : string) (s1 s2 s3 : store) :
  same_but out s1 s2 -> same_but out s2 s3 -> same_but out s1 s3.
Proof. intros H12 H23 n Hn. rewrite (H23 n Hn). now apply H12. Qed.

Lemma same_but_upd (out : string) (s : store) (text : string) :
  same_but out s (upd s out text).
Proof. intros n Hn. now apply upd_other. Qed.

Lemma content_of (s : store) (name c : string) :
  s name = Some c -> content s name = c.
Proof. unfold content. now intros ->. Qed.

Lemma content_upd (s : store) (name text : string) :
  content (upd s name text) name = text.
Proof. unfold content. now rewrite upd_same. Qed.

Lemma names_differ (now : string) : lengths_name now <> summary_name now.
Proof.
  unfold lengths_name, summary_name, generate_output_filenames. simpl.
  intro H. injection H as H. apply append_cancel_l in H. discriminate H.
Qed.

(* ================================================================= *)
(** ** Loops *)

Lemma for_each_app {A S} (l1 l2 : list A) (body : A -> S -> M S) (acc : S)
  (s : store) :
  for_each (l1 ++ l2) body acc s =
  match for_each l1 body acc s with
  | (s', Ret a) => for_each l2 body a s'
  | (s', Raise e) => (s', Raise e)
  end.
Proof.
  revert acc s. induction l1 as [|x l1 IH]; intros acc s; simpl.
  - reflexivity.
  - unfold bind. destruct (body x acc s) as [s1 [a|e]]; [apply IH | reflexivity].
Qed.

(* ================================================================= *)
(** ** The second walk *)

Lemma is_text_file_total (w : world) (p : string) :
  is_text_file w p = Ret (is_text w p).
Proof.
  unfold is_text, is_text_file.
  destruct (read_text (read_classify w p)) as [t|[|n]]; reflexivity.
Qed.

Lemma skip_test_keep_file (identifier : string) (skip_items : list string)
  (f : string) :
  should_skip_item f identifier || Str.mem f skip_items
  = negb (keep_file identifier skip_items f).
Proof.
  unfold keep_file.
  destruct (should_skip_item f identifier), (Str.mem f skip_items);
    reflexivity.
Qed.

Lemma visit_file_eq (w : world) (identifier : string)
  (skip_items : list string) (out root f : string) (acc : list record)
  (s : store) :
  visit_file w identifier skip_items out root f acc s =
  if keep_file identifier skip_items f && is_text w (Path.join root f)
  then process w out (Path.join root f) acc s
  else (s, Ret acc).
Proof.
  unfold visit_file. rewrite skip_test_keep_file.
  destruct (keep_file identifier skip_items f); simpl; [|reflexivity].
  unfold bind at 1, lift at 1. rewrite is_text_file_total.
  destruct (is_text w (Path.join root f)); reflexivity.
Qed.

Lemma visit_files_eq (w : world) (identifier : string)
  (skip_items : list string) (out root : string) (files : list string)
  (acc : list record) (s : store) :
  for_each files (visit_file w identifier skip_items out root) acc s =
  for_each
    (filter (is_text w)
       (map (Path.join root) (filter (keep_file identifier skip_items) files)))
    (process w out) acc s.
Proof.
  revert acc s. induction files as [|f files IH]; intros acc s; simpl.
  - reflexivity.
  - unfold bind at 1. rewrite visit_file_eq.
    destruct (keep_file identifier skip_items f); simpl.
    + destruct (is_text w (Path.join root f)); simpl.
      * unfold bind.
        destruct (process w out (Path.join root f) acc s) as [s1 [a|e]];
          [apply IH | reflexivity].
      * apply IH.
    + apply IH.
Qed.

Lemma collect_eq (w : world) (now : string) (s : store) :
  collect w (cwd w) run_identifier run_skip_items (summary_name now) s =
  for_each (texts w) (process w (summary_name now)) [] s.
Proof.
  unfold collect, texts, candidates, visited, files_of.
  generalize (walk (keep_dir run_skip_items) (cwd w) (listing w)) as ts.
  generalize (@nil record) as acc. intros acc ts. revert acc s.
  induction ts as [|[[root dirs] files] ts IH]; intros acc s; simpl.
  - reflexivity.
  - rewrite filter_app, for_each_app. unfold bind at 1.
    rewrite visit_files_eq.
    destruct (for_each _ (process w (summary_name now)) acc s) as [s1 [a|e]];
      [apply IH | reflexivity].
Qed.

Lemma failure_none_text (w : world) (p : string) :
  failure w p = None ->
  read_text (read_append w p) = Ret (text_of w p)
  /\ stat_size w p = Gives (size_of w p).
Proof.
  unfold failure, text_of, size_of.
  destruct (stat_size w p) as [n|z]; [discriminate|].
  destruct (read_text (read_append w p)) as [t|e]; [|discriminate].
  now split.
Qed.

(** Handling one text file: the record is appended and the block written,
    or the exception of the first failing request comes out. *)
Lemma process_spec (w : world) (out p c : string) (acc : list record)
  (s : store) :
  s out = Some c ->
  exists s',
    process w out p acc s =
      (s', match failure w p with
           | None => Ret (acc ++ [record_of w p])%list
           | Some (e, _) => Raise e
           end)
    /\ same_but out s s'
    /\ s' out = Some (c ++ match failure w p with
                           | None => block w p
                           | Some (_, part) => part
                           end).
Proof.
  intro Hc. unfold process, failure, block, record_of, size_of, text_of.
  unfold bind at 1, lift at 1.
  destruct (stat_size w p) as [errno|n]; cbv beta iota delta [getsize].
  - exists s. split; [reflexivity|]. split; [apply same_but_refl|].
    now rewrite append_nil_right.
  - unfold append_file_content, bind, open_a, write, lift, ret.
    rewrite !content_upd, (content_of _ _ _ Hc). fold (header w p). fold trailer.
    destruct (read_text (read_append w p)) as [t|e]; cbv beta iota.
    + eexists. split; [reflexivity|]. split.
      * intros n0 Hn. now rewrite !upd_other.
      * rewrite upd_same, !content_upd. now rewrite !append_assoc.
    + eexists. split; [reflexivity|]. split.
      * intros n0 Hn. now rewrite !upd_other.
      * rewrite upd_same. reflexivity.
Qed.

Lemma process_all_spec (w : world) (out : string) (ps : list string)
  (c : string) (acc : list record) (s : store) :
  s out = Some c ->
  exists s',
    for_each ps (process w out) acc s =
      (s', match snd (run_texts w ps) with
           | None => Ret (acc ++ map (record_of w) ps)%list
           | Some e => Raise e
           end)
    /\ same_but out s s'
    /\ s' out = Some (c ++ fst (run_texts w ps)).
Proof.
  revert c acc s. induction ps as [|p ps IH]; intros c acc s Hc; simpl.
  - exists s. rewrite app_nil_r, append_nil_right.
    split; [reflexivity|]. split; [apply same_but_refl | exact Hc].
  - unfold bind.
    destruct (process_spec w out p c acc s Hc) as (s1 & E1 & B1 & C1).
    rewrite E1. destruct (failure w p) as [[e part]|].
    + exists s1. simpl. auto.
    + destruct (IH _ (acc ++ [record_of w p])%list s1 C1) as (s2 & E2 & B2 & C2).
      exists s2. rewrite E2.
      destruct (run_texts w ps) as [t r]. simpl in *.
      rewrite <- app_assoc. simpl. split; [reflexivity|]. split.
      * eapply same_but_trans; eassumption.
      * rewrite C2. now rewrite append_assoc.
Qed.

(* ================================================================= *)
(** ** The whole run *)

Lemma write_entries_spec (w : world) (out : string) (recs : list record)
  (c : string) (s : store) :
  s out = Some c ->
  exists s',
    for_each recs
      (fun '(length, filepath) (_ : unit) =>
         let relative_path := Path.relpath filepath (cwd w) in
         write out (relative_path ++ nl ++ Str.of_int length ++ nl ++ nl))
      tt s = (s', Ret tt)
    /\ same_but out s s'
    /\ s' out = Some (c ++ Str.cat (map (entry w) recs)).
Proof.
  revert c s. induction recs as [|[len fp] recs IH]; intros c s Hc.
  - exists s. cbn [for_each map Str.cat fold_right].
    rewrite append_nil_right.
    split; [reflexivity|]. split; [apply same_but_refl | exact Hc].
  - cbn [for_each]. unfold bind, write at 1.
    rewrite (content_of _ _ _ Hc).
    edestruct (IH (c ++ entry w (len, fp))) as (s2 & E2 & B2 & C2);
      [apply upd_same|].
    exists s2. split; [exact E2|]. split.
    + eapply same_but_trans; [apply same_but_upd | exact B2].
    + rewrite C2. cbn [map Str.cat fold_right]. now rewrite append_assoc.
Qed.

Lemma write_lengths_spec (w : world) (out : string) (total : Z)
  (recs : list record) (s : store) :
  exists s',
    write_lengths w out total recs s = (s', Ret tt)
    /\ same_but out s s'
    /\ s' out = Some (lengths_text w total recs).
Proof.
  unfold write_lengths, bind at 1, open_w, bind at 1, write at 1.
  rewrite content_upd.
  edestruct (write_entries_spec w out recs) as (s2 & E2 & B2 & C2);
    [apply upd_same|].
  exists s2. split; [exact E2|]. split.
  - eapply same_but_trans; [|exact B2].
    eapply same_but_trans; apply same_but_upd.
  - rewrite C2. unfold lengths_text. cbn [String.append].
    now rewrite !append_assoc.
Qed.

(** The outcome of a run, whatever the environment answers. *)
Lemma main_spec (w : world) (now : string) (s0 : store) :
  exists s',
    main w now s0 =
      (s', match snd (run_texts w (texts w)) with
           | None => Ret tt
           | Some e => Raise e
           end)
    /\ s' (summary_name now)
       = Some (tree_of w ++ fst (run_texts w (texts w)))
    /\ s' (lengths_name now)
       = match snd (run_texts w (texts w)) with
         | None => Some (lengths_text w (sum_lengths (listed w)) (listed w))
         | Some _ => s0 (lengths_name now)
         end
    /\ (forall n, n <> summary_name now -> n <> lengths_name now ->
                  s' n = s0 n).
Proof.
  unfold main.
  change (generate_output_filenames "output" now)
    with (summary_name now, lengths_name now).
  cbv beta iota zeta.
  unfold bind at 1, open_w at 1, bind at 1, write at 1.
  rewrite content_upd. cbn [String.append].
  fold run_identifier. fold run_skip_items. fold (tree_of w).
  unfold bind at 1. rewrite collect_eq.
  edestruct (process_all_spec w (summary_name now) (texts w) (tree_of w) [])
    as (s1 & E1 & B1 & C1); [apply upd_same|].
  rewrite E1. clear E1.
  destruct (snd (run_texts w (texts w))) as [e|].
  - exists s1. split; [reflexivity|]. split; [exact C1|]. split.
    + rewrite (B1 _ (names_differ now)), upd_other, upd_other;
        auto using names_differ.
    + intros n Hs _. rewrite (B1 _ Hs), !upd_other; auto.
  - cbn [app]. fold (listed w).
    destruct (write_lengths_spec w (lengths_name now)
                (sum_lengths (listed w)) (listed w) s1)
      as (s2 & E2 & B2 & C2).
    exists s2. split; [exact E2|]. split.
    + rewrite B2; [exact C1|]. intro H. symmetry in H.
      exact (names_differ now H).
    + split; [exact C2|].
      intros n Hs Hl. rewrite (B2 _ Hl), (B1 _ Hs), !upd_other; auto.
Qed.

(* ================================================================= *)
(** ** Sorting and summing the records *)

Section Sorting.

Lemma insert_desc_perm (x : record) (l : list record) :
  Permutation (insert_desc x l) (x :: l).
Proof.
  induction l as [|y l IH]; simpl.
  - apply Permutation_refl.
  - destruct (fst y <=? fst x)%Z.
    + apply Permutation_refl.
    + eapply perm_trans; [apply perm_skip, IH | apply perm_swap].
Qed.

Lemma sort_desc_perm (l : list record) : Permutation (sort_desc l) l.
Proof.
  induction l as [|x l IH]; simpl.
  - apply perm_nil.
  - eapply perm_trans; [apply insert_desc_perm | now apply perm_skip].
Qed.

Lemma insert_desc_hd (x : record) (l : list record) (a : record) :
  HdRel not_smaller a l -> not_smaller a x ->
  HdRel not_smaller a (insert_desc x l).
Proof.
  intros Hl Hx. destruct l as [|y l]; simpl.
  - now constructor.
  - destruct (fst y <=? fst x)%Z; constructor; [exact Hx|].
    now inversion Hl.
Qed.

Lemma insert_desc_sorted (x : record) (l : list record) :
  Sorted not_smaller l -> Sorted not_smaller (insert_desc x l).
Proof.
  induction 1 as [|y l Hs IH Hh]; simpl.
  - repeat constructor.
  - destruct (fst y <=? fst x)%Z eqn:E.
    + constructor; [now constructor|]. constructor.
      unfold not_smaller. now apply Z.leb_le.
    + constructor; [exact IH|]. apply insert_desc_hd; [exact Hh|].
      unfold not_smaller. apply Z.leb_gt in E. lia.
Qed.

Lemma sort_desc_sorted (l : list record) : Sorted not_smaller (sort_desc l).
Proof.
  induction l as [|x l IH]; simpl; [constructor|].
  now apply insert_desc_sorted.
Qed.

Lemma sorted_adjacent (l : list record) :
  Sorted not_smaller l ->
  forall pre a b post, l = (pre ++ a :: b :: post)%list -> not_smaller a b.
Proof.
  intros Hs pre. revert l Hs.
  induction pre as [|c pre IH]; intros l Hs a b post ->; simpl in Hs.
  - apply Sorted_inv in Hs. destruct Hs as [_ Hh]. now inversion Hh.
  - apply Sorted_inv in Hs. destruct Hs as [Hs _]. now apply (IH _ Hs a b post).
Qed.

(** Insertion leaves the records of any one size in their order, the new
    record first. *)
Lemma insert_desc_stable (k : Z) (x : record) (l : list record) :
  filter (has_size k) (insert_desc x l) = filter (has_size k) (x :: l).
Proof.
  induction l as [|y l IH]; [reflexivity|].
  cbn [insert_desc]. destruct (fst y <=? fst x)%Z eqn:E; [reflexivity|].
  cbn [filter] in *. rewrite IH. unfold has_size.
  apply Z.leb_gt in E.
  destruct (fst x =? k)%Z eqn:Ex; [|reflexivity].
  apply Z.eqb_eq in Ex.
  assert (Hy : (fst y =? k)%Z = false) by (apply Z.eqb_neq; lia).
  now rewrite Hy.
Qed.

Lemma sort_desc_stable (k : Z) (l : list record) :
  filter (has_size k) (sort_desc l) = filter (has_size k) l.
Proof.
  induction l as [|x l IH]; [reflexivity|].
  cbn [sort_desc]. rewrite insert_desc_stable. cbn [filter].
  now rewrite IH.
Qed.

Lemma sum_lengths_fold_right (l : list record) :
  sum_lengths l = fold_right Z.add 0%Z (map fst l).
Proof.
  unfold sum_lengths. apply fold_symmetric; intros; lia.
Qed.

End Sorting.

(* ================================================================= *)
(** ** Runs that complete and runs that do not *)

Lemma run_texts_handled (w : world) (ps : list string) :
  Forall (handled w) ps ->
  run_texts w ps = (Str.cat (map (block w) ps), None).
Proof.
  induction 1 as [|p ps Hp _ IH]; [reflexivity|].
  cbn [run_texts]. rewrite Hp, IH. reflexivity.
Qed.

Lemma run_texts_stopped (w : world) (ps1 ps2 : list string) (p : string)
  (e : exn) (part : string) :
  Forall (handled w) ps1 -> failure w p = Some (e, part) ->
  run_texts w (ps1 ++ p :: ps2)
  = (Str.cat (map (block w) ps1) ++ part, Some e).
Proof.
  intros H Hp. induction H as [|q ps1 Hq _ IH].
  - cbn. now rewrite Hp.
  - cbn [app run_texts map Str.cat fold_right]. rewrite Hq, IH.
    now rewrite append_assoc.
Qed.

Lemma run_texts_none (w : world) (ps : list string) :
  snd (run_texts w ps) = None -> Forall (handled w) ps.
Proof.
  induction ps as [|p ps IH]; [constructor|].
  cbn [run_texts]. destruct (failure w p) as [[e part]|] eqn:E.
  - discriminate.
  - destruct (run_texts w ps) as [t r]. intro H.
    constructor; [exact E | now apply IH].
Qed.

Lemma main_completes (w : world) (now : string) (s0 : store) :
  Forall (handled w) (texts w) -> exists s', main w now s0 = (s', Ret tt).
Proof.
  intro H. destruct (main_spec w now s0) as (s' & E & _).
  rewrite (run_texts_handled _ _ H) in E. now exists s'.
Qed.

(** In the model, where every request is answered and every write
    succeeds, a run in a file system at rest returns. *)
Lemma at_rest_completes (start : string) (es : list node)
  (bytes : string -> answer string) (now : string) (s0 : store) :
  exists s', main (at_rest start es bytes) now s0 = (s', Ret tt).
Proof.
  apply main_completes, Forall_forall. intros p Hp.
  unfold texts in Hp. apply filter_In in Hp. destruct Hp as [_ Hp].
  unfold is_text, is_text_file, handled, failure in *.
  cbn [at_rest read_classify stat_size read_append] in *.
  destruct (bytes p) as [errno|b]; [discriminate Hp|].
  destruct (read_text (Gives b)) as [t|[|n]];
    [reflexivity | discriminate Hp..].
Qed.

Lemma main_completed (w : world) (now : string) (s0 s' : store) :
  main w now s0 = (s', Ret tt) ->
  Forall (handled w) (texts w)
  /\ s' (summary_name now)
     = Some (tree_of w ++ Str.cat (map (block w) (texts w)))
  /\ s' (lengths_name now)
     = Some (lengths_text w (sum_lengths (listed w)) (listed w)).
Proof.
  intro H. destruct (main_spec w now s0) as (s1 & E & HS & HL & _).
  rewrite H in E. injection E as <- Hr.
  destruct (snd (run_texts w (texts w))) as [e|] eqn:Er; [discriminate|].
  apply run_texts_none in Er.
  rewrite (run_texts_handled _ _ Er) in HS. auto.
Qed.

(* ================================================================= *)
(** ** The classifier *)

(** C5. [is_text_file] returns, and returns true exactly when the file
    could be read and its whole contents are well-formed UTF-8; a failing
    read and a failing decoding both give false, and no exception leaves
    the function. *)
Theorem is_text_file_classifies (w : world) (filepath : string) :
  is_text_file w filepath
  = Ret match read_classify w filepath with
        | Gives bytes => Codec.utf8_valid bytes
        | Fails _ => false
        end.
Proof.
  unfold is_text_file, read_text.
  destruct (read_classify w filepath) as [errno|bytes]; [reflexivity|].
  destruct (Codec.utf8_valid bytes); reflexivity.
Qed.

Example utf8_accepts_two_byte_sequence :
  Codec.utf8_valid (String "195" (String "169" EmptyString)) = true.
Proof. reflexivity. Qed.

Example utf8_rejects_overlong_form :
  Codec.utf8_valid (String "192" (String "128" EmptyString)) = false.
Proof. reflexivity. Qed.

Example utf8_rejects_surrogate :
  Codec.utf8_valid
    (String "237" (String "160" (String "128" EmptyString))) = false.
Proof. reflexivity. Qed.

Example utf8_rejects_truncated_sequence :
  Codec.utf8_valid (String "a" (String "226" (String "130" EmptyString)))
  = false.
Proof. reflexivity. Qed.

Example utf8_rejects_beyond_last_code_point :
  Codec.utf8_valid
    (String "244" (String "144" (String "128" (String "128" EmptyString))))
  = false.
Proof. reflexivity. Qed.

Example utf8_accepts_four_byte_sequence :
  Codec.utf8_valid
    (String "240" (String "159" (String "152" (String "128" EmptyString))))
  = true.
Proof. reflexivity. Qed.

(* ================================================================= *)
(** ** The lengths document *)

(** C2. In a run that completes, the total in the header of the lengths
    document is the sum of the lengths the document lists. *)
Theorem total_is_sum_of_listed (w : world) (now : string) (s0 s' : store) :
  main w now s0 = (s', Ret tt) ->
  s' (lengths_name now)
  = Some ("Total Length: "
          ++ Str.of_int (fold_right Z.add 0%Z (map fst (listed w)))
          ++ nl ++ nl ++ Str.cat (map (entry w) (listed w))).
Proof.
  intro H. apply main_completed in H. destruct H as (_ & _ & HL).
  rewrite HL. unfold lengths_text. now rewrite sum_lengths_fold_right.
Qed.

Lemma total_is_sum_of_listed_witness :
  main scenario_world sample_now no_files
  = (fst (main scenario_world sample_now no_files), Ret tt)
  /\ fst (main scenario_world sample_now no_files) (lengths_name sample_now)
     = Some ("Total Length: "
             ++ Str.of_int
                  (fold_right Z.add 0%Z (map fst (listed scenario_world)))
             ++ nl ++ nl
             ++ Str.cat (map (entry scenario_world) (listed scenario_world))).
Proof.
  assert (H : main scenario_world sample_now no_files
              = (fst (main scenario_world sample_now no_files), Ret tt))
    by (vm_compute; reflexivity).
  split; [exact H|].
  exact (total_is_sum_of_listed scenario_world sample_now no_files _ H).
Defined.

(** C4. In a run that completes, the lengths document lists the records
    by size, never a smaller one before a larger one, and records of the
    same size in the order in which the walk found them. *)
Theorem lengths_sorted_and_stable (w : world) (now : string)
  (s0 s' : store) :
  main w now s0 = (s', Ret tt) ->
  s' (lengths_name now)
  = Some (lengths_text w (sum_lengths (listed w)) (listed w))
  /\ (forall pre a b post,
        listed w = (pre ++ a :: b :: post)%list -> (fst a >= fst b)%Z)
  /\ (forall k,
        filter (has_size k) (listed w)
        = filter (has_size k) (map (record_of w) (texts w))).
Proof.
  intro H. apply main_completed in H. destruct H as (_ & _ & HL).
  split; [exact HL|]. split.
  - intros pre a b post E. apply Z.le_ge.
    exact (sorted_adjacent _ (sort_desc_sorted _) pre a b post E).
  - intro k. apply sort_desc_stable.
Qed.

Lemma lengths_sorted_and_stable_witness :
  main scenario_world sample_now no_files
  = (fst (main scenario_world sample_now no_files), Ret tt)
  /\ listed scenario_world
     = [(6%Z, "/home/user/project/sub/b.txt");
        (5%Z, "/home/user/project/a.txt")]
  /\ (forall pre a b post,
        listed scenario_world = (pre ++ a :: b :: post)%list ->
        (fst a >= fst b)%Z).
Proof.
  assert (H : main scenario_world sample_now no_files
              = (fst (main scenario_world sample_now no_files), Ret tt))
    by (vm_compute; reflexivity).
  split; [exact H|]. split; [vm_compute; reflexivity|].
  exact (proj1 (proj2
    (lengths_sorted_and_stable scenario_world sample_now no_files _ H))).
Defined.

Example sort_keeps_discovery_order_of_ties :
  sort_desc [(3%Z, "first"); (7%Z, "big"); (3%Z, "second"); (3%Z, "third")]
  = [(7%Z, "big"); (3%Z, "first"); (3%Z, "second"); (3%Z, "third")].
Proof. reflexivity. Qed.

Lemma unlines_cons (x : string) (l : list string) :
  unlines (x :: l) = x ++ nl ++ unlines l.
Proof. unfold unlines. cbn [map Str.cat fold_right]. apply append_assoc. Qed.

Lemma entries_lines (w : world) (recs : list record) :
  Str.cat (map (entry w) recs)
  = unlines
      (flat_map
         (fun r => [Path.relpath (snd r) (cwd w); Str.of_int (fst r);
                    EmptyString])
         recs).
Proof.
  induction recs as [|r recs IH]; [reflexivity|].
  cbn [map Str.cat fold_right flat_map app].
  rewrite !unlines_cons, <- IH. unfold entry.
  rewrite !append_assoc. reflexivity.
Qed.

Lemma lengths_text_lines (w : world) (total : Z) (recs : list record) :
  lengths_text w total recs
  = unlines
      (("Total Length: " ++ Str.of_int total) :: EmptyString ::
       flat_map
         (fun r => [Path.relpath (snd r) (cwd w); Str.of_int (fst r);
                    EmptyString])
         recs).
Proof.
  rewrite !unlines_cons, <- entries_lines. unfold lengths_text.
  rewrite append_assoc. reflexivity.
Qed.

(** C8. In a run that completes, the lengths document is the header line
    with the total, an empty line, and then for each record in sorted
    order three lines: the relative path, the length and an empty line. *)
Theorem lengths_document_format (w : world) (now : string) (s0 s' : store) :
  main w now s0 = (s', Ret tt) ->
  s' (lengths_name now)
  = Some (unlines
            (("Total Length: " ++ Str.of_int (sum_lengths (listed w)))
             :: EmptyString
             :: flat_map
                  (fun r => [Path.relpath (snd r) (cwd w);
                             Str.of_int (fst r); EmptyString])
                  (listed w))).
Proof.
  intro H. apply main_completed in H. destruct H as (_ & _ & HL).
  now rewrite HL, lengths_text_lines.
Qed.

Lemma lengths_document_format_witness :
  main scenario_world sample_now no_files
  = (fst (main scenario_world sample_now no_files), Ret tt)
  /\ fst (main scenario_world sample_now no_files) (lengths_name sample_now)
     = Some (unlines ["Total Length: 11"; EmptyString;
                      "sub/b.txt"; "6"; EmptyString;
                      "a.txt"; "5"; EmptyString]).
Proof.
  assert (H : main scenario_world sample_now no_files
              = (fst (main scenario_world sample_now no_files), Ret tt))
    by (vm_compute; reflexivity).
  split; [exact H|].
  rewrite (lengths_document_format scenario_world sample_now no_files _ H).
  vm_compute. reflexivity.
Defined.

(* ================================================================= *)
(** ** Runs that stop *)

(** C6. When the second reading of a file classified as text fails, every
    earlier text file having been handled, the exception of that reading
    leaves [main]; the summary document then ends with the header of the
    failing file's block, and a lengths document that did not exist before
    the run does not exist after it. *)
Theorem aggregation_failure_aborts (w : world) (now : string) (s0 : store)
  (ps1 ps2 : list string) (p : string) (n : Z) (e : exn) :
  texts w = (ps1 ++ p :: ps2)%list ->
  Forall (handled w) ps1 ->
  stat_size w p = Gives n ->
  read_text (read_append w p) = Raise e ->
  s0 (lengths_name now) = None ->
  exists s',
    main w now s0 = (s', Raise e)
    /\ s' (summary_name now)
       = Some (tree_of w ++ Str.cat (map (block w) ps1) ++ header w p)
    /\ s' (lengths_name now) = None.
Proof.
  intros Ht H1 Hn He H0.
  destruct (main_spec w now s0) as (s' & E & HS & HL & _).
  assert (Hf : failure w p = Some (e, header w p))
    by (unfold failure; now rewrite Hn, He).
  rewrite Ht, (run_texts_stopped w ps1 ps2 p e _ H1 Hf) in E, HS, HL.
  cbn [fst snd] in *. exists s'. rewrite HL. auto.
Qed.

Lemma aggregation_failure_aborts_witness :
  exists s',
    main vanishing_world sample_now no_files = (s', Raise (OSError 2))
    /\ s' (summary_name sample_now)
       = Some (tree_of vanishing_world
               ++ Str.cat (map (block vanishing_world)
                             ["/home/user/project/a.txt"])
               ++ header vanishing_world "/home/user/project/b.txt")
    /\ s' (lengths_name sample_now) = None.
Proof.
  apply (aggregation_failure_aborts vanishing_world sample_now no_files
           ["/home/user/project/a.txt"] [] "/home/user/project/b.txt" 5%Z).
  - vm_compute. reflexivity.
  - constructor; [vm_compute; reflexivity | constructor].
  - reflexivity.
  - vm_compute. reflexivity.
  - reflexivity.
Defined.

Example vanishing_run_leaves_truncated_summary :
  fst (main vanishing_world sample_now no_files) (summary_name sample_now)
  = Some (unlines ["project/"; "    a.txt"; "    b.txt";
                   EmptyString; EmptyString; EmptyString;
                   "a.txt"; quotes3; "hello"; quotes3;
                   EmptyString; EmptyString; EmptyString;
                   "b.txt"; quotes3]).
Proof. vm_compute. reflexivity. Qed.

(* ================================================================= *)
(** ** Facts about paths *)

Section Paths.

Lemma split_sep_nonempty (s : string) : Str.split_sep s <> [].
Proof.
  destruct s as [|c s]; simpl; [discriminate|].
  destruct (Ascii.eqb c "/"); [discriminate|].
  destruct (Str.split_sep s); discriminate.
Qed.

Lemma split_sep_cons (a b : string) :
  Str.split_sep (a ++ String "/" b)
  = (Str.split_sep a ++ Str.split_sep b)%list.
Proof.
  induction a as [|c a IH]; [reflexivity|].
  cbn [String.append Str.split_sep]. rewrite IH.
  destruct (Ascii.eqb c "/"); [reflexivity|].
  destruct (Str.split_sep a) as [|x l] eqn:E; [|reflexivity].
  now apply split_sep_nonempty in E.
Qed.

Lemma split_sep_app (a b : string) :
  Str.split_sep (a ++ "/" ++ b) = (Str.split_sep a ++ Str.split_sep b)%list.
Proof. exact (split_sep_cons a b). Qed.

Lemma split_sep_plain (n : string) :
  Path.has_sep n = false -> Str.split_sep n = [n].
Proof.
  induction n as [|c n IH]; [reflexivity|].
  cbn [Path.has_sep Str.split_sep]. intro H.
  apply orb_false_iff in H. destruct H as [Hc Hn].
  now rewrite Hc, (IH Hn).
Qed.

Lemma endswith_sep_inv (a : string) :
  Str.endswith_sep a = true -> exists a', a = a' ++ "/".
Proof.
  induction a as [|c a IH]; [discriminate|].
  cbn [Str.endswith_sep]. destruct a as [|d a].
  - intro H. apply Ascii.eqb_eq in H. subst c. now exists EmptyString.
  - intro H. destruct (IH H) as [a' E]. exists (String c a').
    cbn [String.append]. now rewrite <- E.
Qed.

Lemma valid_name_inv (n : string) :
  valid_name n = true ->
  n <> EmptyString /\ Path.has_sep n = false /\ n <> "." /\ n <> "..".
Proof.
  unfold valid_name. rewrite !andb_true_iff, !negb_true_iff.
  intros [[[H1 H2] H3] H4]. repeat split; trivial;
    now apply String.eqb_neq.
Qed.

Lemma valid_name_no_leading_sep (n : string) :
  valid_name n = true -> Str.startswith n Path.sep = false.
Proof.
  intro H. apply valid_name_inv in H. destruct H as (_ & H & _).
  destruct n as [|c n]; [reflexivity|].
  cbn [Path.has_sep] in H. apply orb_false_iff in H. destruct H as [Hc _].
  unfold Str.startswith, Path.sep. cbn [String.prefix].
  destruct (Ascii.ascii_dec "/" c) as [E|E]; [|reflexivity].
  subst c. discriminate Hc.
Qed.

Lemma norm_step_valid (acc : list string) (n : string) :
  valid_name n = true -> Path.norm_step acc n = (acc ++ [n])%list.
Proof.
  intro H. apply valid_name_inv in H. destruct H as (H1 & _ & H3 & H4).
  unfold Path.norm_step.
  apply String.eqb_neq in H1, H3, H4. now rewrite H1, H3, H4.
Qed.

(** [join] adds one component to the normal form. *)
Lemma norm_comps_join (a n : string) :
  valid_name n = true ->
  Path.norm_comps (Path.join a n) = (Path.norm_comps a ++ [n])%list.
Proof.
  intro Hn. unfold Path.join. rewrite (valid_name_no_leading_sep _ Hn).
  pose proof (valid_name_inv _ Hn) as (_ & Hs & _).
  destruct (String.eqb a EmptyString) eqn:Ea.
  - apply String.eqb_eq in Ea. subst a. cbn [orb String.append].
    unfold Path.norm_comps. rewrite (split_sep_plain _ Hs).
    cbn [fold_left Str.split_sep]. now rewrite norm_step_valid.
  - cbn [orb]. destruct (Str.endswith_sep a) eqn:Ee.
    + apply endswith_sep_inv in Ee. destruct Ee as [a' ->].
      rewrite append_assoc. change ("/" ++ n) with (String "/" n).
      unfold Path.norm_comps. rewrite !split_sep_cons.
      rewrite (split_sep_plain _ Hs), !fold_left_app.
      cbn [fold_left Str.split_sep]. rewrite norm_step_valid by exact Hn.
      reflexivity.
    + unfold Path.norm_comps, Path.sep. rewrite split_sep_app.
      rewrite (split_sep_plain _ Hs), fold_left_app.
      cbn [fold_left]. now rewrite norm_step_valid.
Qed.

Lemma path_of_snoc (start : string) (cs : list string) (n : string) :
  path_of start (cs ++ [n]) = Path.join (path_of start cs) n.
Proof. unfold path_of. now rewrite fold_left_app. Qed.

Lemma path_of_cons (start : string) (n : string) (cs : list string) :
  path_of start (n :: cs) = path_of (Path.join start n) cs.
Proof. reflexivity. Qed.

Lemma norm_comps_path_of (start : string) (cs : list string) :
  forallb valid_name cs = true ->
  Path.norm_comps (path_of start cs) = (Path.norm_comps start ++ cs)%list.
Proof.
  revert start. induction cs as [|n cs IH]; intros start H.
  - cbn. now rewrite app_nil_r.
  - cbn [forallb] in H. apply andb_true_iff in H. destruct H as [Hn Hcs].
    rewrite path_of_cons, (IH _ Hcs), (norm_comps_join _ _ Hn).
    now rewrite <- app_assoc.
Qed.

Lemma common_len_app (l m : list string) :
  Path.common_len l (l ++ m) = List.length l.
Proof.
  induction l as [|x l IH]; [reflexivity|].
  cbn. now rewrite String.eqb_refl, IH.
Qed.

Lemma skipn_length_app (l m : list string) :
  skipn (List.length l) (l ++ m) = m.
Proof. induction l as [|x l IH]; [reflexivity | exact IH]. Qed.

(** Below the start directory, the relative path is the path from it. *)
Lemma relpath_path_of (start : string) (cs : list string) :
  forallb valid_name cs = true -> cs <> [] ->
  Path.relpath (path_of start cs) start = Path.join_all cs.
Proof.
  intros Hv Hne. unfold Path.relpath.
  rewrite (norm_comps_path_of _ _ Hv), common_len_app, Nat.sub_diag.
  rewrite skipn_length_app. cbn [List.repeat app].
  destruct cs; [contradiction | reflexivity].
Qed.

Lemma norm_comps_empty : Path.norm_comps EmptyString = [].
Proof. reflexivity. Qed.

Lemma norm_comps_name (n : string) :
  valid_name n = true -> Path.norm_comps n = [n].
Proof.
  intro Hn. pose proof (valid_name_inv _ Hn) as (_ & Hs & _).
  unfold Path.norm_comps. rewrite (split_sep_plain _ Hs).
  cbn [fold_left]. now rewrite norm_step_valid.
Qed.

(** The normal form recovers the components of a relative path. *)
Lemma norm_comps_join_all (cs : list string) :
  forallb valid_name cs = true -> cs <> [] ->
  Path.norm_comps (Path.join_all cs) = cs.
Proof.
  destruct cs as [|n cs]; [contradiction|]. intros H _.
  cbn [forallb] in H. apply andb_true_iff in H. destruct H as [Hn Hcs].
  cbn [Path.join_all]. change (fold_left Path.join cs n) with (path_of n cs).
  now rewrite (norm_comps_path_of _ _ Hcs), (norm_comps_name _ Hn).
Qed.

Lemma basename_plain (n : string) :
  Path.has_sep n = false -> Path.basename n = n.
Proof.
  destruct n as [|c n]; [reflexivity|].
  cbn [Path.has_sep Path.basename]. intro H.
  apply orb_false_iff in H. destruct H as [Hc Hn]. now rewrite Hn, Hc.
Qed.

Lemma has_sep_app (a b : string) :
  Path.has_sep (a ++ b) = Path.has_sep a || Path.has_sep b.
Proof.
  induction a as [|c a IH]; [reflexivity|].
  cbn [String.append Path.has_sep]. now rewrite IH, orb_assoc.
Qed.

Lemma basename_after_sep (a n : string) :
  Path.has_sep n = false -> Path.basename (a ++ "/" ++ n) = n.
Proof.
  intro Hn. change ("/" ++ n) with (String "/" n).
  induction a as [|c a IH].
  - cbn [String.append Path.basename]. now rewrite Hn.
  - cbn [String.append Path.basename].
    rewrite has_sep_app. cbn [Path.has_sep].
    replace (Ascii.eqb "/" "/") with true by reflexivity.
    cbn [orb]. rewrite orb_true_r. exact IH.
Qed.

(** The walk names a directory by the name its parent lists. *)
Lemma basename_join (a n : string) :
  valid_name n = true -> Path.basename (Path.join a n) = n.
Proof.
  intro Hn. unfold Path.join. rewrite (valid_name_no_leading_sep _ Hn).
  pose proof (valid_name_inv _ Hn) as (_ & Hs & _).
  destruct (String.eqb a EmptyString) eqn:Ea.
  - apply String.eqb_eq in Ea. subst a. now apply basename_plain.
  - cbn [orb]. destruct (Str.endswith_sep a) eqn:Ee.
    + apply endswith_sep_inv in Ee. destruct Ee as [a' ->].
      rewrite append_assoc. now apply basename_after_sep.
    + now apply basename_after_sep.
Qed.

End Paths.

(* ================================================================= *)
(** ** The walk and the file system *)

Section Walk.

Variable keep : string -> bool.

(** Induction on a node with the hypothesis for every entry below it. *)
Lemma node_nested_ind (P : node -> Prop) :
  (forall n, P (File n)) ->
  (forall n, P (Closed n)) ->
  (forall n sub, Forall P sub -> P (Dir n sub)) ->
  forall e, P e.
Proof.
  intros HF HC HD. fix IH 1. intros [n|n sub|n].
  - apply HF.
  - apply HD. induction sub as [|e sub IHsub]; constructor.
    + apply IH.
    + exact IHsub.
  - apply HC.
Qed.

Lemma enter_dir (parent n : string) (sub : list node) :
  enter keep parent (Dir n sub)
  = if keep n then walk keep (Path.join parent n) sub else [].
Proof. reflexivity. Qed.

(** Every triple comes from a directory reached through kept names. *)
Lemma enter_sound (e : node) :
  forall parent t, In t (enter keep parent e) ->
  exists n sub comps es',
    e = Dir n sub /\ keep n = true /\ dir_at sub comps es'
    /\ Forall (fun c => keep c = true) comps
    /\ t = (path_of (Path.join parent n) comps, dir_names es',
            file_names es').
Proof.
  induction e as [n|n|n sub IH] using node_nested_ind; intros parent t Ht;
    try contradiction.
  cbn [enter] in Ht. destruct (keep n) eqn:Hk; [|contradiction].
  destruct Ht as [<-|Ht].
  - exists n, sub, [], sub. repeat split; trivial. constructor.
  - apply in_flat_map in Ht. destruct Ht as (e & He & Ht).
    rewrite Forall_forall in IH.
    destruct (IH e He _ _ Ht) as (m & sub' & comps & es' & -> & Hm & Hd & Hc & ->).
    exists n, sub, (m :: comps), es'. repeat split; trivial.
    + econstructor; eassumption.
    + now constructor.
Qed.

Lemma walk_sound (top : string) (es : list node) (t : triple) :
  In t (walk keep top es) ->
  exists comps es',
    dir_at es comps es' /\ Forall (fun c => keep c = true) comps
    /\ t = (path_of top comps, dir_names es', file_names es').
Proof.
  intros [<-|Ht].
  - exists [], es. repeat split; constructor.
  - apply in_flat_map in Ht. destruct Ht as (e & He & Ht).
    destruct (enter_sound e _ _ Ht)
      as (n & sub & comps & es' & -> & Hn & Hd & Hc & ->).
    exists (n :: comps), es'. repeat split.
    + econstructor; eassumption.
    + now constructor.
Qed.

(** Every directory reached through kept names yields its triple. *)
Lemma walk_complete (es : list node) (comps : list string)
  (es' : list node) :
  dir_at es comps es' -> Forall (fun c => keep c = true) comps ->
  forall top,
    In (path_of top comps, dir_names es', file_names es')
       (walk keep top es).
Proof.
  induction 1 as [es|es n sub comps es' Hin _ IH]; intros Hk top.
  - now left.
  - right. apply in_flat_map. exists (Dir n sub). split; [exact Hin|].
    apply Forall_cons_iff in Hk. destruct Hk as [Hn Hk].
    rewrite enter_dir, Hn. exact (IH Hk (Path.join top n)).
Qed.

Variable keepf : string -> bool.
Variable paths_of : triple -> list string.
Hypothesis paths_of_eq :
  forall root dirs files,
    paths_of (root, dirs, files) = map (Path.join root) (filter keepf files).

Lemma paths_of_enter (e : node) :
  forall top,
    flat_map paths_of (enter keep top e)
    = map (path_of top) (files_below keep keepf e).
Proof.
  induction e as [n|n|n sub IH] using node_nested_ind; intro top;
    try reflexivity.
  cbn [enter files_below]. destruct (keep n); [|reflexivity].
  cbn [flat_map]. rewrite paths_of_eq, List.map_map, List.map_app, !List.map_map.
  cbn [path_of fold_left]. f_equal.
  induction IH as [|e sub He _ IHsub]; [reflexivity|].
  cbn [flat_map]. rewrite flat_map_app, List.map_app, IHsub, He.
  reflexivity.
Qed.

Lemma paths_of_walk (top : string) (es : list node) :
  flat_map paths_of (walk keep top es)
  = map (path_of top) (files_in keep keepf es).
Proof.
  unfold walk, files_in. cbn [flat_map].
  rewrite paths_of_eq, List.map_app, List.map_map. cbn [path_of fold_left]. f_equal.
  induction es as [|e es IH]; [reflexivity|].
  cbn [flat_map]. now rewrite flat_map_app, List.map_app, IH, paths_of_enter.
Qed.

End Walk.

Lemma candidates_files_in (w : world) :
  candidates w
  = map (path_of (cwd w))
      (files_in (keep_dir run_skip_items)
         (keep_file run_identifier run_skip_items) (listing w)).
Proof.
  unfold candidates, visited. apply paths_of_walk. reflexivity.
Qed.

(* ================================================================= *)
(** ** Well-formed file systems give distinct paths *)

Section Distinct.

Variables keep keepf : string -> bool.

Lemma mem_In (x : string) (l : list string) :
  Str.mem x l = true <-> In x l.
Proof.
  unfold Str.mem. rewrite existsb_exists. split.
  - intros (y & Hy & E). apply String.eqb_eq in E. now subst y.
  - intro H. exists x. split; [exact H | apply String.eqb_refl].
Qed.

Lemma mem_false (x : string) (l : list string) :
  Str.mem x l = false <-> ~ In x l.
Proof.
  rewrite <- mem_In. destruct (Str.mem x l); split; congruence.
Qed.

Lemma distinct_NoDup (l : list string) : distinct l = true -> NoDup l.
Proof.
  induction l as [|x l IH]; [constructor|].
  cbn [distinct]. rewrite andb_true_iff, negb_true_iff, mem_false.
  intros [Hx Hl]. constructor; auto.
Qed.

Lemma file_names_In (f : string) (es : list node) :
  In f (file_names es) <-> In (File f) es.
Proof.
  unfold file_names. rewrite in_flat_map. split.
  - intros (e & He & Hf). destruct e; try contradiction.
    destruct Hf as [->|[]]. exact He.
  - intro H. exists (File f). split; [exact H | now left].
Qed.

Lemma same_name_same_node (es : list node) (a b : node) :
  NoDup (map node_name es) -> In a es -> In b es ->
  node_name a = node_name b -> a = b.
Proof.
  induction es as [|e es IH]; [contradiction|].
  cbn [map]. intros Hnd Ha Hb E. apply NoDup_cons_iff in Hnd.
  destruct Hnd as [Hn Hnd], Ha as [->|Ha], Hb as [->|Hb]; auto.
  - exfalso. apply Hn. rewrite E. now apply in_map.
  - exfalso. apply Hn. rewrite <- E. now apply in_map.
Qed.

Lemma file_names_NoDup (es : list node) :
  NoDup (map node_name es) -> NoDup (file_names es).
Proof.
  induction es as [|e es IH]; [constructor|].
  cbn [map]. intro H. apply NoDup_cons_iff in H. destruct H as [Hn Hnd].
  destruct e as [n|n sub|n]; cbn; auto.
  constructor; [|auto]. intro Hf. apply Hn. cbn [node_name].
  apply file_names_In in Hf. now apply (in_map node_name) in Hf.
Qed.

Lemma files_below_head (e : node) (cs : list string) :
  In cs (files_below keep keepf e) ->
  exists sub rest, e = Dir (node_name e) sub /\ cs = node_name e :: rest.
Proof.
  destruct e as [n|n sub|n]; try contradiction.
  cbn [files_below]. destruct (keep n); [|contradiction].
  intro H. apply in_map_iff in H. destruct H as (rest & <- & _).
  now exists sub, rest.
Qed.

Lemma flat_files_below_NoDup (es : list node) :
  NoDup (map node_name es) ->
  Forall (fun e => NoDup (files_below keep keepf e)) es ->
  NoDup (flat_map (files_below keep keepf) es).
Proof.
  induction es as [|e es IH]; [constructor|].
  cbn [map flat_map]. intros Hnd Hall.
  apply NoDup_cons_iff in Hnd. destruct Hnd as [Hn Hnd].
  apply Forall_cons_iff in Hall. destruct Hall as [He Hall].
  apply NoDup_app; auto.
  intros cs H1 H2. apply Hn.
  apply files_below_head in H1. destruct H1 as (_ & rest & _ & ->).
  apply in_flat_map in H2. destruct H2 as (e' & He' & H2).
  apply files_below_head in H2. destruct H2 as (_ & rest' & _ & E).
  injection E as -> _. now apply in_map.
Qed.

Lemma files_in_NoDup (es : list node) :
  NoDup (map node_name es) ->
  Forall (fun e => NoDup (files_below keep keepf e)) es ->
  NoDup (files_in keep keepf es).
Proof.
  intros Hnd Hall. unfold files_in. apply NoDup_app.
  - apply Finite.Injective_map_NoDup_in.
    + intros x y _ _ E. now injection E.
    + apply NoDup_filter. now apply file_names_NoDup.
  - now apply flat_files_below_NoDup.
  - intros cs H1 H2. apply in_map_iff in H1. destruct H1 as (f & <- & Hf).
    apply filter_In in Hf. destruct Hf as [Hf _].
    apply file_names_In in Hf.
    apply in_flat_map in H2. destruct H2 as (e & He & H2).
    apply files_below_head in H2. destruct H2 as (sub & rest & Ee & E).
    injection E as E _.
    assert (Habs : File f = e)
      by (apply (same_name_same_node es); auto).
    rewrite <- Habs in Ee. discriminate Ee.
Qed.

Lemma wf_files_below_NoDup (e : node) :
  wf_node e = true -> NoDup (files_below keep keepf e).
Proof.
  induction e as [n|n|n sub IH] using node_nested_ind; intro Hwf;
    try constructor.
  cbn [wf_node] in Hwf. rewrite !andb_true_iff in Hwf.
  destruct Hwf as (_ & Hd & Hsub).
  cbn [files_below]. destruct (keep n); [|constructor].
  apply Finite.Injective_map_NoDup_in.
  - intros x y _ _ E. now injection E.
  - apply files_in_NoDup; [now apply distinct_NoDup|].
    rewrite forallb_forall in Hsub. rewrite Forall_forall in IH |- *.
    intros e He. apply IH; auto.
Qed.

Lemma wf_files_in_NoDup (es : list node) :
  distinct (map node_name es) = true -> forallb wf_node es = true ->
  NoDup (files_in keep keepf es).
Proof.
  intros Hd Hwf. apply files_in_NoDup; [now apply distinct_NoDup|].
  rewrite forallb_forall in Hwf. apply Forall_forall.
  intros e He. apply wf_files_below_NoDup. auto.
Qed.

Lemma wf_node_valid_name (e : node) :
  wf_node e = true -> valid_name (node_name e) = true.
Proof.
  destruct e; cbn [wf_node]; rewrite andb_true_iff; now intros [H _].
Qed.

Lemma files_in_valid_aux (es : list node) :
  forallb wf_node es = true ->
  Forall (fun e => forall cs, In cs (files_below keep keepf e) ->
                   forallb valid_name cs = true /\ cs <> []) es ->
  forall cs, In cs (files_in keep keepf es) ->
  forallb valid_name cs = true /\ cs <> [].
Proof.
  intros Hwf Hall cs H. unfold files_in in H. apply in_app_or in H.
  destruct H as [H|H].
  - apply in_map_iff in H. destruct H as (f & <- & Hf).
    apply filter_In in Hf. destruct Hf as [Hf _].
    apply file_names_In in Hf. rewrite forallb_forall in Hwf.
    apply Hwf, wf_node_valid_name in Hf. cbn [node_name] in Hf.
    cbn [forallb]. rewrite Hf. split; [reflexivity | discriminate].
  - apply in_flat_map in H. destruct H as (e & He & H).
    rewrite Forall_forall in Hall. exact (Hall e He cs H).
Qed.

Lemma wf_files_below_valid (e : node) :
  wf_node e = true ->
  forall cs, In cs (files_below keep keepf e) ->
  forallb valid_name cs = true /\ cs <> [].
Proof.
  induction e as [n|n|n sub IH] using node_nested_ind; intros Hwf cs H;
    try contradiction.
  cbn [wf_node node_name] in Hwf. rewrite !andb_true_iff in Hwf.
  destruct Hwf as (Hn & _ & Hsub).
  cbn [files_below] in H. destruct (keep n); [|contradiction].
  apply in_map_iff in H. destruct H as (rest & <- & H).
  apply files_in_valid_aux in H; auto.
  - cbn [forallb]. rewrite Hn. destruct H as [H _].
    split; [exact H | discriminate].
  - rewrite forallb_forall in Hsub. rewrite Forall_forall in IH |- *.
    intros e He. apply IH; auto.
Qed.

Lemma wf_files_in_valid (es : list node) :
  forallb wf_node es = true ->
  forall cs, In cs (files_in keep keepf es) ->
  forallb valid_name cs = true /\ cs <> [].
Proof.
  intro Hwf. apply files_in_valid_aux; [exact Hwf|].
  rewrite forallb_forall in Hwf. apply Forall_forall.
  intros e He. apply wf_files_below_valid. auto.
Qed.

End Distinct.

Lemma relpath_candidates (w : world) :
  well_formed w = true ->
  map (fun p => Path.relpath p (cwd w)) (candidates w)
  = map Path.join_all
      (files_in (keep_dir run_skip_items)
         (keep_file run_identifier run_skip_items) (listing w)).
Proof.
  unfold well_formed. rewrite andb_true_iff. intros [_ Hwf].
  rewrite candidates_files_in, List.map_map. apply map_ext_in.
  intros cs Hcs. apply wf_files_in_valid in Hcs; [|exact Hwf].
  destruct Hcs as [Hv Hne]. now apply relpath_path_of.
Qed.

(** No two candidates of a well-formed file system have the same relative
    path. *)
Lemma relpath_candidates_NoDup (w : world) :
  well_formed w = true ->
  NoDup (map (fun p => Path.relpath p (cwd w)) (candidates w)).
Proof.
  intro H. rewrite (relpath_candidates w H).
  unfold well_formed in H. apply andb_true_iff in H. destruct H as [Hd Hwf].
  apply Finite.Injective_map_NoDup_in.
  - intros x y Hx Hy E.
    apply wf_files_in_valid in Hx, Hy; trivial.
    destruct Hx as [Hx Hx'], Hy as [Hy Hy'].
    rewrite <- (norm_comps_join_all x Hx Hx'), E.
    now apply norm_comps_join_all.
  - now apply wf_files_in_NoDup.
Qed.

Lemma filter_keeps_images_distinct {A B} (image : A -> B)
  (chosen : A -> bool) :
  forall xs, NoDup (map image xs) -> NoDup (map image (filter chosen xs)).
Proof.
  intro xs. induction xs as [|x xs IH]; [trivial|].
  cbn [map filter]. intro H. apply NoDup_cons_iff in H.
  destruct H as [Hx Hxs]. destruct (chosen x); [|auto].
  cbn [map]. constructor; [|auto].
  intro Hin. apply Hx. apply in_map_iff in Hin.
  destruct Hin as (y & E & Hy). apply filter_In in Hy.
  rewrite <- E. apply in_map. tauto.
Qed.

Lemma listed_paths_perm (w : world) :
  Permutation (map (fun p => Path.relpath p (cwd w)) (texts w))
    (map (fun r : record => Path.relpath (snd r) (cwd w)) (listed w)).
Proof.
  unfold listed.
  eapply perm_trans;
    [|apply Permutation_map, Permutation_sym, sort_desc_perm].
  rewrite List.map_map. apply Permutation_refl.
Qed.

(* ================================================================= *)
(** ** The outline *)

Lemma file_lines_acc (subindent : string) (files : list string)
  (acc : string) :
  fold_left
    (fun tree f =>
       if keep_file run_identifier run_skip_items f
       then tree ++ subindent ++ f ++ nl
       else tree)
    files acc
  = acc ++ Str.cat
             (map (fun f => subindent ++ f ++ nl)
                (filter (keep_file run_identifier run_skip_items) files)).
Proof.
  revert acc. induction files as [|f files IH]; intro acc.
  - cbn. now rewrite append_nil_right.
  - cbn [fold_left filter].
    destruct (keep_file run_identifier run_skip_items f); rewrite IH.
    + cbn [map Str.cat fold_right]. now rewrite !append_assoc.
    + reflexivity.
Qed.

Lemma tree_step_lines (startpath : string) (acc : string) (t : triple) :
  tree_step startpath run_identifier run_skip_items acc t
  = acc ++ Str.cat (map (render_line startpath) (lines_of t)).
Proof.
  destruct t as [[root dirs] files]. unfold tree_step, lines_of.
  destruct (negb (Str.mem (Path.basename root) run_skip_items)
            && negb (Str.startswith (Path.basename root) ".")).
  - rewrite file_lines_acc. cbn [map Str.cat fold_right render_line].
    rewrite List.map_map. cbn [render_line]. now rewrite !append_assoc.
  - cbn. now rewrite append_nil_right.
Qed.

Lemma tree_fold_lines (startpath : string) (ts : list triple)
  (acc : string) :
  fold_left (tree_step startpath run_identifier run_skip_items) ts acc
  = acc ++ Str.cat (map (render_line startpath) (flat_map lines_of ts)).
Proof.
  revert acc. induction ts as [|t ts IH]; intro acc.
  - cbn. now rewrite append_nil_right.
  - cbn [fold_left flat_map]. rewrite IH, tree_step_lines.
    now rewrite List.map_app, cat_app, append_assoc.
Qed.

(** The outline is made of the lines of the triples, in order. *)
Lemma tree_of_lines (w : world) :
  tree_of w = Str.cat (map (render_line (cwd w)) (tree_lines w)).
Proof.
  unfold tree_of, create_directory_tree, tree_lines, visited.
  now rewrite tree_fold_lines.
Qed.

(* ================================================================= *)
(** ** Names that are let through *)

Lemma keep_dir_ok (n : string) :
  keep_dir run_skip_items n = true <-> dir_ok n.
Proof.
  unfold keep_dir, dir_ok.
  now rewrite andb_true_iff, !negb_true_iff, mem_false.
Qed.

Lemma keep_file_ok (n : string) :
  keep_file run_identifier run_skip_items n = true <-> file_ok n.
Proof.
  unfold keep_file, file_ok, should_skip_item.
  rewrite andb_true_iff, !negb_true_iff, orb_false_iff, mem_false. tauto.
Qed.

Lemma visited_open (w : world) (root : string) (dirs files : list string) :
  In (root, dirs, files) (visited w) ->
  exists es,
    open_dir w root es /\ dirs = dir_names es /\ files = file_names es.
Proof.
  intro H. apply walk_sound in H.
  destruct H as (comps & es & Hd & Hk & E). injection E as -> -> ->.
  exists es. split; [|now split]. exists comps. repeat split; trivial.
  eapply Forall_impl; [|exact Hk]. intros c. apply keep_dir_ok.
Qed.

Lemma open_visited (w : world) (root : string) (es : list node) :
  open_dir w root es ->
  In (root, dir_names es, file_names es) (visited w).
Proof.
  intros (comps & -> & Hd & Hk). apply walk_complete; [exact Hd|].
  eapply Forall_impl; [|exact Hk]. intros c. apply keep_dir_ok.
Qed.

Lemma tree_lines_ok (w : world) : Forall (line_ok w) (tree_lines w).
Proof.
  apply Forall_forall. intros l Hl. unfold tree_lines in Hl.
  apply in_flat_map in Hl. destruct Hl as ([[root dirs] files] & Ht & Hl).
  apply visited_open in Ht. destruct Ht as (es & Ho & _ & ->).
  unfold lines_of in Hl.
  destruct (negb (Str.mem (Path.basename root) run_skip_items)
            && negb (Str.startswith (Path.basename root) "."));
    [|contradiction].
  destruct Hl as [<-|Hl].
  - now exists es.
  - apply in_map_iff in Hl. destruct Hl as (f & <- & Hf).
    apply filter_In in Hf. destruct Hf as [Hf Hk].
    exists es. split; [exact Ho|]. split.
    + now apply file_names_In.
    + now apply keep_file_ok.
Qed.

Lemma candidates_accepted (w : world) (p : string) :
  In p (candidates w) <-> accepted w p.
Proof.
  unfold candidates, accepted. rewrite in_flat_map. split.
  - intros ([[root dirs] files] & Ht & Hp).
    apply visited_open in Ht. destruct Ht as (es & Ho & _ & ->).
    unfold files_of in Hp. apply in_map_iff in Hp.
    destruct Hp as (f & <- & Hf). apply filter_In in Hf.
    destruct Hf as [Hf Hk]. exists root, es, f.
    split; [exact Ho|]. split; [now apply file_names_In|].
    split; [now apply keep_file_ok | reflexivity].
  - intros (root & es & f & Ho & Hf & Hk & ->).
    exists (root, dir_names es, file_names es).
    split; [now apply open_visited|].
    unfold files_of. apply in_map, filter_In. split.
    + now apply file_names_In.
    + now apply keep_file_ok.
Qed.

Lemma texts_accepted (w : world) (p : string) :
  In p (texts w) -> accepted w p.
Proof.
  unfold texts. intro H. apply filter_In in H.
  now apply candidates_accepted.
Qed.

Lemma listed_texts (w : world) (r : record) :
  In r (listed w) -> In (snd r) (texts w) /\ r = record_of w (snd r).
Proof.
  unfold listed. intro H.
  apply (Permutation_in _ (sort_desc_perm _)) in H.
  apply in_map_iff in H. destruct H as (p & <- & Hp). now split.
Qed.

(** What the summary document holds after the outline: whole blocks of
    text files, and at most the header of one more. *)
Lemma run_texts_shape (w : world) (ps : list string) :
  exists done tail,
    fst (run_texts w ps) = Str.cat (map (block w) done) ++ tail
    /\ incl done ps
    /\ (tail = EmptyString \/ exists p, In p ps /\ tail = header w p).
Proof.
  induction ps as [|p ps IH].
  - exists [], EmptyString. repeat split; [apply incl_nil_l | now left].
  - cbn [run_texts]. unfold failure.
    destruct (stat_size w p) as [errno|n].
    + exists [], EmptyString. repeat split; [apply incl_nil_l | now left].
    + destruct (read_text (read_append w p)) as [t|e].
      * destruct IH as (done & tail & E & Hi & Ht).
        destruct (run_texts w ps) as [t' r']. cbn [fst] in *.
        exists (p :: done), tail. split; [|split].
        -- cbn [map Str.cat fold_right]. now rewrite E, append_assoc.
        -- intros q [<-|Hq]; [now left | right; auto].
        -- destruct Ht as [Ht|(q & Hq & Ht)]; [now left|].
           right. exists q. split; [now right | exact Ht].
      * exists [], (header w p). repeat split; [apply incl_nil_l|].
        right. exists p. split; [now left | reflexivity].
Qed.

(* ================================================================= *)
(** ** What is left out *)

(** C1, amended.  Whatever the environment answers, the summary document
    is made of outline lines, whole content blocks and at most the header
    of one more block, and the lengths document, when the run writes it,
    of records; every directory line is for a directory reached from the
    start directory through directories that are neither hidden nor in the
    skip set, and every file line, block and record is for a file of such
    a directory whose name is not hidden, does not contain the identifier
    and is not in the skip set. *)
Theorem skipped_entries_absent (w : world) (now : string) (s0 : store) :
  exists s' r done tail,
    main w now s0 = (s', r)
    /\ s' (summary_name now)
       = Some (Str.cat (map (render_line (cwd w)) (tree_lines w))
               ++ Str.cat (map (block w) done) ++ tail)
    /\ Forall (line_ok w) (tree_lines w)
    /\ Forall (accepted w) done
    /\ (tail = EmptyString \/ exists p, accepted w p /\ tail = header w p)
    /\ (s' (lengths_name now) = s0 (lengths_name now)
        \/ exists recs,
             s' (lengths_name now)
             = Some (lengths_text w (sum_lengths recs) recs)
             /\ Forall (fun r : record => accepted w (snd r)) recs).
Proof.
  destruct (main_spec w now s0) as (s' & E & HS & HL & _).
  destruct (run_texts_shape w (texts w)) as (done & tail & Ef & Hi & Ht).
  eexists s', _, done, tail. split; [exact E|].
  split; [now rewrite HS, Ef, tree_of_lines|].
  split; [apply tree_lines_ok|]. split; [|split].
  - apply Forall_forall. intros p Hp. apply texts_accepted. auto.
  - destruct Ht as [Ht|(p & Hp & Ht)]; [now left|].
    right. exists p. split; [now apply texts_accepted | exact Ht].
  - rewrite HL. destruct (snd (run_texts w (texts w))); [now left|].
    right. exists (listed w). split; [reflexivity|].
    apply Forall_forall. intros r Hr. apply listed_texts in Hr.
    apply texts_accepted. tauto.
Qed.

(** C1 as stated fails: below a hidden start directory, and below a
    directory whose name contains the identifier, files are embedded and
    listed. *)
Lemma skipped_names_counterexample :
  Str.startswith (Path.basename (cwd dotfiles_world)) "." = true
  /\ Str.contains run_identifier "out29ph50JZ7" = true
  /\ main dotfiles_world sample_now no_files
     = (fst (main dotfiles_world sample_now no_files), Ret tt)
  /\ fst (main dotfiles_world sample_now no_files)
       (summary_name sample_now)
     = Some (unlines ["    out29ph50JZ7/"; "        b.txt";
                      EmptyString; EmptyString; EmptyString;
                      "vimrc"; quotes3; "hello"; quotes3;
                      EmptyString; EmptyString; EmptyString;
                      "out29ph50JZ7/b.txt"; quotes3; "world!"; quotes3])
  /\ fst (main dotfiles_world sample_now no_files)
       (lengths_name sample_now)
     = Some (unlines ["Total Length: 11"; EmptyString;
                      "out29ph50JZ7/b.txt"; "6"; EmptyString;
                      "vimrc"; "5"; EmptyString]).
Proof. repeat split; vm_compute; reflexivity. Qed.

(* ================================================================= *)
(** ** The two documents name the same files *)

(** C3 as stated fails for a run that stops: the summary document has the
    block of [a.txt], and there is no lengths document to list it. *)
Lemma stopped_run_counterexample :
  main vanishing_world sample_now no_files
  = (fst (main vanishing_world sample_now no_files), Raise (OSError 2))
  /\ fst (main vanishing_world sample_now no_files)
       (summary_name sample_now)
     = Some (unlines ["project/"; "    a.txt"; "    b.txt";
                      EmptyString; EmptyString; EmptyString;
                      "a.txt"; quotes3; "hello"; quotes3;
                      EmptyString; EmptyString; EmptyString;
                      "b.txt"; quotes3])
  /\ fst (main vanishing_world sample_now no_files)
       (lengths_name sample_now) = None.
Proof. repeat split; vm_compute; reflexivity. Qed.

(** C3, amended.  In a run that completes, the relative paths of the
    content blocks of the summary document and the relative paths the
    lengths document lists are the same, with the same multiplicities; in
    a well-formed file system each is listed once. *)
Theorem summary_and_lengths_agree (w : world) (now : string)
  (s0 s' : store) :
  main w now s0 = (s', Ret tt) ->
  s' (summary_name now)
  = Some (tree_of w ++ Str.cat (map (block w) (texts w)))
  /\ s' (lengths_name now)
     = Some (lengths_text w (sum_lengths (listed w)) (listed w))
  /\ Permutation
       (map (fun p => Path.relpath p (cwd w)) (texts w))
       (map (fun r : record => Path.relpath (snd r) (cwd w)) (listed w))
  /\ (forall q,
        In q (map (fun p => Path.relpath p (cwd w)) (texts w))
        <-> In q (map (fun r : record => Path.relpath (snd r) (cwd w))
                    (listed w)))
  /\ (well_formed w = true ->
      NoDup (map (fun r : record => Path.relpath (snd r) (cwd w))
               (listed w))).
Proof.
  intro H. apply main_completed in H. destruct H as (_ & HS & HL).
  split; [exact HS|]. split; [exact HL|].
  pose proof (listed_paths_perm w) as HP.
  split; [exact HP|]. split.
  - intro q. split; apply Permutation_in;
      [exact HP | apply Permutation_sym, HP].
  - intro Hwf. apply (Permutation_NoDup HP).
    unfold texts. apply filter_keeps_images_distinct.
    now apply relpath_candidates_NoDup.
Qed.

Lemma summary_and_lengths_agree_witness :
  main scenario_world sample_now no_files
  = (fst (main scenario_world sample_now no_files), Ret tt)
  /\ well_formed scenario_world = true
  /\ map (fun r : record => Path.relpath (snd r) (cwd scenario_world))
       (listed scenario_world) = ["sub/b.txt"; "a.txt"]
  /\ NoDup (map (fun r : record => Path.relpath (snd r) (cwd scenario_world))
              (listed scenario_world)).
Proof.
  assert (H : main scenario_world sample_now no_files
              = (fst (main scenario_world sample_now no_files), Ret tt))
    by (vm_compute; reflexivity).
  assert (Hwf : well_formed scenario_world = true)
    by (vm_compute; reflexivity).
  split; [exact H|]. split; [exact Hwf|].
  split; [vm_compute; reflexivity|].
  exact (proj2 (proj2 (proj2 (proj2
    (summary_and_lengths_agree scenario_world sample_now no_files _ H))))
    Hwf).
Defined.

(* ================================================================= *)
(** ** Indentation *)

(** C9 at a start directory holding a directory of its own name: the
    directory [/app/app] is one level below the start directory, yet its
    line is not indented, and its file is indented by four spaces. *)
Theorem nested_same_name_loses_indent :
  dir_at (listing app_world) ["app"] [File "main.py"]
  /\ path_of (cwd app_world) ["app"] = "/app/app"
  /\ level_of (cwd app_world) "/app/app" = 0
  /\ tree_lines app_world
     = [DirLine "/app"; DirLine "/app/app"; FileLine "/app/app" "main.py"]
  /\ tree_of app_world = unlines ["app/"; "app/"; "    main.py"].
Proof.
  split.
  - eapply dir_below; [now left | constructor].
  - repeat split; vm_compute; reflexivity.
Qed.

(* ================================================================= *)
(** ** A start directory that is itself hidden or in the skip set *)


Lemma lines_of_shown (root : string) (dirs files : list string) :
  dir_ok (Path.basename root) ->
  lines_of (root, dirs, files)
  = DirLine root
    :: map (FileLine root)
         (filter (keep_file run_identifier run_skip_items) files).
Proof.
  intros [Hh Hs]. unfold lines_of.
  apply mem_false in Hs. now rewrite Hs, Hh.
Qed.


Lemma read_text_ret (a : answer string) (t : string) :
  read_text a = Ret t ->
  exists bytes,
    a = Gives bytes /\ Codec.utf8_valid bytes = true
    /\ t = Codec.universal_newlines bytes.
Proof.
  unfold read_text. destruct a as [errno|bytes]; [discriminate|].
  destruct (Codec.utf8_valid bytes) eqn:E; [|discriminate].
  intro H. injection H as <-. now exists bytes.
Qed.




(* ================================================================= *)
(** ** The documents of the run do not feed the run *)

Lemma dir_names_files (es : list node) (outs : list string) :
  dir_names (es ++ map File outs) = dir_names es.
Proof.
  unfold dir_names. rewrite flat_map_app.
  replace (flat_map _ (map File outs)) with (@nil string);
    [apply app_nil_r|].
  induction outs as [|n l IH]; [reflexivity | exact IH].
Qed.

Lemma file_names_files (es : list node) (outs : list string) :
  file_names (es ++ map File outs) = (file_names es ++ outs)%list.
Proof.
  unfold file_names. rewrite flat_map_app. f_equal.
  induction outs as [|n l IH]; [reflexivity|].
  cbn. now rewrite IH.
Qed.

Lemma enter_files (keep : string -> bool) (top : string) (es : list node)
  (outs : list string) :
  flat_map (enter keep top) (es ++ map File outs)
  = flat_map (enter keep top) es.
Proof.
  rewrite flat_map_app.
  replace (flat_map (enter keep top) (map File outs)) with (@nil triple);
    [apply app_nil_r|].
  induction outs as [|n l IH]; [reflexivity | exact IH].
Qed.

Lemma filter_marked (outs : list string) :
  Forall (fun n => Str.contains run_identifier n = true) outs ->
  filter (keep_file run_identifier run_skip_items) outs = [].
Proof.
  induction 1 as [|n l Hn _ IH]; [reflexivity|].
  cbn [filter]. unfold keep_file at 1, should_skip_item.
  rewrite Hn, orb_true_r. exact IH.
Qed.

(** Files whose names contain the identifier, the documents of this and of
    earlier runs among them, change neither the candidates nor the
    outline. *)
Lemma own_outputs_ignored (top : string) (es : list node)
  (outs : list string) :
  Forall (fun n => Str.contains run_identifier n = true) outs ->
  flat_map files_of
    (walk (keep_dir run_skip_items) top (es ++ map File outs))
  = flat_map files_of (walk (keep_dir run_skip_items) top es)
  /\ flat_map lines_of
       (walk (keep_dir run_skip_items) top (es ++ map File outs))
     = flat_map lines_of (walk (keep_dir run_skip_items) top es).
Proof.
  intro H. unfold walk.
  rewrite enter_files, dir_names_files, file_names_files.
  cbn [flat_map]. unfold files_of at 1 3, lines_of at 1 3.
  now rewrite filter_app, (filter_marked _ H), app_nil_r.
Qed.

(* ================================================================= *)
(** ** The round-trip scenario *)

Section RoundTrip.

Let keepf := keep_file run_identifier run_skip_items.
Let keep := keep_dir run_skip_items.

Lemma kept_files_flat (es : list node) :
  filter keepf (file_names es)
  = flat_map (fun e => filter keepf (file_names [e])) es.
Proof.
  induction es as [|e es IH]; [reflexivity|].
  change (e :: es) with ([e] ++ es)%list at 1.
  unfold file_names at 1. rewrite flat_map_app. fold (file_names [e]).
  fold (file_names es). cbn [flat_map]. now rewrite filter_app, IH.
Qed.

Lemma hidden_node_ignored (top : string) (h : node) :
  node_name h = ".hidden" ->
  filter keepf (file_names [h]) = [] /\ enter keep top h = [].
Proof.
  destruct h as [n|n sub|n]; cbn [node_name]; intros ->; now split.
Qed.

(** The scenario's directory in any listing order: one file is let
    through and one directory is entered. *)
Lemma scenario_listing (top : string) (es : list node) (h : node)
  (outs : list string) :
  Permutation es
    (File "a.txt" :: h :: Dir "sub" [File "b.txt"] :: map File outs) ->
  node_name h = ".hidden" ->
  Forall (fun n => Str.contains run_identifier n = true) outs ->
  filter keepf (file_names es) = ["a.txt"]
  /\ flat_map (enter keep top) es
     = [(Path.join top "sub", [], ["b.txt"])].
Proof.
  intros Hp Hh Houts.
  destruct (hidden_node_ignored top h Hh) as [Hf He].
  split; apply Permutation_length_1_inv.
  - rewrite kept_files_flat.
    eapply perm_trans;
      [|apply Permutation_flat_map, Permutation_sym, Hp].
    cbn [flat_map]. rewrite Hf, <- kept_files_flat.
    rewrite <- (app_nil_l (map File outs)), file_names_files.
    cbn [file_names flat_map app]. unfold keepf.
    rewrite (filter_marked _ Houts). apply Permutation_refl.
  - eapply perm_trans;
      [|apply Permutation_flat_map, Permutation_sym, Hp].
    cbn [flat_map]. rewrite He.
    rewrite <- (app_nil_l (map File outs)), enter_files.
    apply Permutation_refl.
Qed.

(** The scenario from any start directory. *)
Lemma round_trip_from_any_start (w : world) (now : string) (s0 : store)
  (h : node) (outs : list string) :
  Permutation (listing w)
    (File "a.txt" :: h :: Dir "sub" [File "b.txt"] :: map File outs) ->
  node_name h = ".hidden" ->
  Forall (fun n => Str.contains run_identifier n = true) outs ->
  read_classify w (Path.join (cwd w) "a.txt") = Gives "hello" ->
  stat_size w (Path.join (cwd w) "a.txt") = Gives 5%Z ->
  read_append w (Path.join (cwd w) "a.txt") = Gives "hello" ->
  read_classify w (Path.join (Path.join (cwd w) "sub") "b.txt")
  = Gives "world!" ->
  stat_size w (Path.join (Path.join (cwd w) "sub") "b.txt") = Gives 6%Z ->
  read_append w (Path.join (Path.join (cwd w) "sub") "b.txt")
  = Gives "world!" ->
  exists s',
    main w now s0 = (s', Ret tt)
    /\ s' (summary_name now)
       = Some (tree_of w
               ++ unlines [EmptyString; EmptyString; EmptyString;
                           "a.txt"; quotes3; "hello"; quotes3;
                           EmptyString; EmptyString; EmptyString;
                           "sub/b.txt"; quotes3; "world!"; quotes3])
    /\ s' (lengths_name now)
       = Some (unlines ["Total Length: 11"; EmptyString;
                        "sub/b.txt"; "6"; EmptyString;
                        "a.txt"; "5"; EmptyString])
    /\ tree_lines w
       = ((if negb (Str.mem (Path.basename (cwd w)) run_skip_items)
              && negb (Str.startswith (Path.basename (cwd w)) ".")
           then [DirLine (cwd w); FileLine (cwd w) "a.txt"]
           else [])
          ++ [DirLine (Path.join (cwd w) "sub");
              FileLine (Path.join (cwd w) "sub") "b.txt"])%list.
Proof.
  intros Hp Hh Houts Ca Sa Aa Cb Sb Ab.
  destruct (scenario_listing (cwd w) _ h outs Hp Hh Houts) as [Hf He].
  set (pa := Path.join (cwd w) "a.txt") in *.
  set (psub := Path.join (cwd w) "sub") in *.
  set (pb := Path.join psub "b.txt") in *.
  assert (Hc : candidates w = [pa; pb]).
  { unfold candidates, visited, walk. fold keep. rewrite He.
    cbn [flat_map]. unfold files_of at 1. fold keepf. rewrite Hf.
    reflexivity. }
  assert (Hlines :
    tree_lines w
    = ((if negb (Str.mem (Path.basename (cwd w)) run_skip_items)
           && negb (Str.startswith (Path.basename (cwd w)) ".")
        then [DirLine (cwd w); FileLine (cwd w) "a.txt"]
        else [])
       ++ [DirLine psub; FileLine psub "b.txt"])%list).
  { unfold tree_lines, visited, walk. fold keep. rewrite He.
    cbn [flat_map]. unfold lines_of at 1. fold keepf. rewrite Hf.
    f_equal. unfold lines_of, psub.
    rewrite (basename_join (cwd w) "sub") by reflexivity. reflexivity. }
  assert (Ht : texts w = [pa; pb]).
  { unfold texts. rewrite Hc. cbn [filter].
    unfold is_text, is_text_file. rewrite Ca, Cb. reflexivity. }
  assert (Hr : run_texts w (texts w)
               = (block w pa ++ block w pb ++ EmptyString, None)).
  { rewrite Ht. cbn [run_texts]. unfold failure.
    now rewrite Sa, Aa, Sb, Ab. }
  assert (Hl : listed w = [(6%Z, pb); (5%Z, pa)]).
  { unfold listed. rewrite Ht. cbn [map]. unfold record_of, size_of.
    now rewrite Sa, Sb. }
  assert (Ra : Path.relpath pa (cwd w) = "a.txt")
    by (apply (relpath_path_of (cwd w) ["a.txt"]); [reflexivity | discriminate]).
  assert (Rb : Path.relpath pb (cwd w) = "sub/b.txt")
    by (apply (relpath_path_of (cwd w) ["sub"; "b.txt"]);
        [reflexivity | discriminate]).
  destruct (main_spec w now s0) as (s' & E & HS & HL & _).
  rewrite Hr in E, HS, HL. cbn [fst snd] in E, HS, HL.
  rewrite Hl in HL.
  unfold block, header, text_of in HS. rewrite Aa, Ab, Ra, Rb in HS.
  unfold lengths_text, entry in HL. cbn [map fst snd] in HL.
  rewrite Ra, Rb in HL.
  exists s'. split; [exact E|]. split; [|split; [|exact Hlines]].
  - rewrite HS. reflexivity.
  - rewrite HL. reflexivity.
Qed.

End RoundTrip.

(** C7. In [/home/user/project] holding, in any order, [a.txt] with the
    five bytes [hello], an entry [.hidden] of any kind and content, and
    [sub/b.txt] with the six bytes [world!], next to whatever documents of
    this program, the run completes; the summary document is the outline
    followed by the blocks of [a.txt] and [sub/b.txt] with their contents
    as they are, the lengths document gives the total 11 and lists
    [sub/b.txt] with 6 before [a.txt] with 5, and neither document
    mentions [.hidden]. *)
Theorem round_trip_scenario (w : world) (now : string) (s0 : store)
  (h : node) (outs : list string) :
  cwd w = "/home/user/project" ->
  Permutation (listing w)
    (File "a.txt" :: h :: Dir "sub" [File "b.txt"] :: map File outs) ->
  node_name h = ".hidden" ->
  Forall (fun n => Str.contains run_identifier n = true) outs ->
  read_classify w "/home/user/project/a.txt" = Gives "hello" ->
  stat_size w "/home/user/project/a.txt" = Gives 5%Z ->
  read_append w "/home/user/project/a.txt" = Gives "hello" ->
  read_classify w "/home/user/project/sub/b.txt" = Gives "world!" ->
  stat_size w "/home/user/project/sub/b.txt" = Gives 6%Z ->
  read_append w "/home/user/project/sub/b.txt" = Gives "world!" ->
  exists s' summary lengths,
    main w now s0 = (s', Ret tt)
    /\ s' (summary_name now) = Some summary
    /\ s' (lengths_name now) = Some lengths
    /\ summary
       = unlines ["project/"; "    a.txt"; "    sub/"; "        b.txt";
                  EmptyString; EmptyString; EmptyString;
                  "a.txt"; quotes3; "hello"; quotes3;
                  EmptyString; EmptyString; EmptyString;
                  "sub/b.txt"; quotes3; "world!"; quotes3]
    /\ lengths
       = unlines ["Total Length: 11"; EmptyString;
                  "sub/b.txt"; "6"; EmptyString;
                  "a.txt"; "5"; EmptyString]
    /\ Str.contains ".hidden" summary = false
    /\ Str.contains ".hidden" lengths = false.
Proof.
  intros Hcwd Hp Hh Houts Ca Sa Aa Cb Sb Ab.
  destruct (round_trip_from_any_start w now s0 h outs Hp Hh Houts)
    as (s' & E & HS & HL & Hlines);
    try (rewrite Hcwd; assumption).
  assert (Htree : tree_of w
                  = unlines ["project/"; "    a.txt"; "    sub/";
                             "        b.txt"]).
  { rewrite tree_of_lines, Hlines, Hcwd. vm_compute. reflexivity. }
  rewrite Htree in HS.
  exists s'. eexists. eexists. split; [exact E|].
  split; [exact HS|]. split; [exact HL|].
  repeat split; vm_compute; reflexivity.
Qed.

Lemma round_trip_scenario_witness :
  exists s' summary lengths,
    main scenario_world sample_now no_files = (s', Ret tt)
    /\ s' (summary_name sample_now) = Some summary
    /\ s' (lengths_name sample_now) = Some lengths
    /\ summary
       = unlines ["project/"; "    a.txt"; "    sub/"; "        b.txt";
                  EmptyString; EmptyString; EmptyString;
                  "a.txt"; quotes3; "hello"; quotes3;
                  EmptyString; EmptyString; EmptyString;
                  "sub/b.txt"; quotes3; "world!"; quotes3]
    /\ lengths
       = unlines ["Total Length: 11"; EmptyString;
                  "sub/b.txt"; "6"; EmptyString;
                  "a.txt"; "5"; EmptyString]
    /\ Str.contains ".hidden" summary = false
    /\ Str.contains ".hidden" lengths = false.
Proof.
  apply (round_trip_scenario scenario_world sample_now no_files
           (File ".hidden")
           ["output_2024_01_02_03_04_05_29ph50JZ7_summary.txt";
            "pythonSummary29ph50JZ7.py"]);
    try reflexivity; try apply Permutation_refl.
  repeat constructor.
Defined.

Example round_trip_in_another_listing_order :
  fst (main
         (at_rest "/home/user/project"
            [Dir "sub" [File "b.txt"];
             File "output_2024_01_02_03_04_05_29ph50JZ7_summary.txt";
             File ".hidden"; File "a.txt"]
            scenario_bytes)
         sample_now no_files) (lengths_name sample_now)
  = Some (unlines ["Total Length: 11"; EmptyString;
                   "sub/b.txt"; "6"; EmptyString;
                   "a.txt"; "5"; EmptyString]).
Proof. vm_compute. reflexivity. Qed.
(* ================================================================= *)
(** ** When the indentation is the depth *)

Section Levels.

Lemma prefix_app (a b : string) : String.prefix a (a ++ b) = true.
Proof.
  induction a as [|c a IH]; [now destruct b|].
  cbn [String.append String.prefix].
  destruct (Ascii.ascii_dec c c) as [_|N]; [exact IH | now elim N].
Qed.

Lemma replace_scan_skip (old new x rest : string) :
  Str.replace_scan old new (String.length x) (x ++ rest)
  = Str.replace_scan old new 0 rest.
Proof.
  induction x as [|c x IH]; [reflexivity|].
  cbn [String.append String.length Str.replace_scan]. exact IH.
Qed.

Lemma replace_scan_absent (old s : string) :
  Str.contains old s = false ->
  Str.replace_scan old EmptyString 0 s = s.
Proof.
  induction s as [|c s IH]; [reflexivity|].
  cbn [Str.contains]. intro H. apply orb_false_iff in H.
  destruct H as [Hp Hc]. cbn [Str.replace_scan].
  rewrite Hp, (IH Hc). reflexivity.
Qed.

(** Removing the start path from a path below it leaves the rest, unless
    the start path occurs in the rest again. *)
Lemma replace_start (start rest : string) :
  start <> EmptyString -> Str.contains start rest = false ->
  Str.replace (start ++ rest) start EmptyString = rest.
Proof.
  intros Hne Hc. unfold Str.replace.
  destruct start as [|c start]; [contradiction|].
  cbn [String.append Str.replace_scan].
  change (String c (start ++ rest)) with (String c start ++ rest).
  rewrite prefix_app.
  change (String.length (String c start) - 1) with (String.length start - 0).
  rewrite Nat.sub_0_r, replace_scan_skip. now apply replace_scan_absent.
Qed.

Lemma join_valid (a n : string) :
  a <> EmptyString -> Str.endswith_sep a = false -> valid_name n = true ->
  Path.join a n = a ++ "/" ++ n.
Proof.
  intros Ha He Hn. unfold Path.join.
  rewrite (valid_name_no_leading_sep _ Hn), He.
  apply String.eqb_neq in Ha. now rewrite Ha.
Qed.

Lemma endswith_sep_app (a n : string) :
  n <> EmptyString ->
  Str.endswith_sep (a ++ n) = Str.endswith_sep n.
Proof.
  intro Hn. induction a as [|c a IH]; [reflexivity|].
  cbn [String.append Str.endswith_sep].
  destruct (a ++ n) as [|d r] eqn:E; [|exact IH].
  destruct a; [cbn in E; contradiction | discriminate E].
Qed.

Lemma endswith_sep_plain (n : string) :
  Path.has_sep n = false -> Str.endswith_sep n = false.
Proof.
  induction n as [|c n IH]; [reflexivity|].
  cbn [Path.has_sep Str.endswith_sep]. intro H.
  apply orb_false_iff in H. destruct H as [Hc Hn].
  destruct n; [exact Hc | now apply IH].
Qed.

Lemma path_of_below (start : string) (comps : list string) :
  start <> EmptyString -> Str.endswith_sep start = false ->
  forallb valid_name comps = true ->
  path_of start comps = start ++ below_start comps.
Proof.
  revert start. induction comps as [|n comps IH]; intros start Hne He Hv.
  - cbn. now rewrite append_nil_right.
  - cbn [forallb] in Hv. apply andb_true_iff in Hv. destruct Hv as [Hn Hv].
    pose proof (valid_name_inv _ Hn) as (Hn0 & Hs & _).
    rewrite path_of_cons, IH; trivial.
    + rewrite (join_valid _ _ Hne He Hn). cbn [below_start].
      now rewrite !append_assoc.
    + rewrite (join_valid _ _ Hne He Hn). now destruct start.
    + rewrite (join_valid _ _ Hne He Hn).
      rewrite <- append_assoc, endswith_sep_app by exact Hn0.
      now apply endswith_sep_plain.
Qed.

Lemma prefix_sep (c : ascii) (s : string) :
  String.prefix Path.sep (String c s) = Ascii.eqb c "/".
Proof.
  unfold Path.sep. cbn [String.prefix].
  destruct (Ascii.ascii_dec "/" c) as [<-|N].
  - now destruct s.
  - symmetry. apply Ascii.eqb_neq. congruence.
Qed.

Lemma count_scan_sep_cons (c : ascii) (s : string) :
  Str.count_scan Path.sep 0 (String c s)
  = (if Ascii.eqb c "/" then 1 else 0) + Str.count_scan Path.sep 0 s.
Proof.
  cbn [Str.count_scan]. rewrite prefix_sep.
  now destruct (Ascii.eqb c "/").
Qed.

Lemma count_scan_sep_app (a b : string) :
  Str.count_scan Path.sep 0 (a ++ b)
  = Str.count_scan Path.sep 0 a + Str.count_scan Path.sep 0 b.
Proof.
  induction a as [|c a IH]; [reflexivity|].
  cbn [String.append]. rewrite !count_scan_sep_cons, IH. lia.
Qed.

Lemma count_scan_sep_plain (n : string) :
  Path.has_sep n = false -> Str.count_scan Path.sep 0 n = 0.
Proof.
  induction n as [|c n IH]; [reflexivity|].
  cbn [Path.has_sep]. intro H. apply orb_false_iff in H.
  destruct H as [Hc Hn]. now rewrite count_scan_sep_cons, Hc, IH.
Qed.

Lemma count_sep (s : string) :
  Str.count s Path.sep = Str.count_scan Path.sep 0 s.
Proof. reflexivity. Qed.

Lemma count_below_start (comps : list string) :
  forallb valid_name comps = true ->
  Str.count (below_start comps) Path.sep = List.length comps.
Proof.
  rewrite count_sep.
  induction comps as [|n comps IH]; [reflexivity|].
  cbn [forallb]. intro H. apply andb_true_iff in H. destruct H as [Hn Hv].
  pose proof (valid_name_inv _ Hn) as (_ & Hs & _).
  cbn [below_start].
  change ("/" ++ n ++ below_start comps)
    with (String "/" (n ++ below_start comps)).
  rewrite count_scan_sep_cons, count_scan_sep_app.
  rewrite (count_scan_sep_plain _ Hs), (IH Hv). reflexivity.
Qed.

(** The level is the depth for every directory below which the start path
    does not occur again. *)
Lemma level_of_is_depth (start : string) (comps : list string) :
  start <> EmptyString -> Str.endswith_sep start = false ->
  forallb valid_name comps = true ->
  Str.contains start (below_start comps) = false ->
  level_of start (path_of start comps) = List.length comps.
Proof.
  intros Hne He Hv Hc. unfold level_of.
  rewrite (path_of_below _ _ Hne He Hv), (replace_start _ _ Hne Hc).
  now apply count_below_start.
Qed.

End Levels.

Example level_of_is_depth_in_scenario :
  level_of "/home/user/project" (path_of "/home/user/project" ["sub"; "deep"])
  = 2.
Proof. now apply level_of_is_depth. Qed.

Example level_of_at_file_system_root :
  level_of "/" (path_of "/" ["usr"; "lib"]) = 0.
Proof. reflexivity. Qed.

Example level_of_below_name_with_same_prefix :
  level_of "/proj" (path_of "/proj" ["projects"; "x"]) = 1.
Proof. reflexivity. Qed.

(* ================================================================= *)
(** ** Decimal numerals *)

Lemma to_int_not_nil (z : Z) :
  Z.to_int z <> Decimal.Pos Decimal.Nil
  /\ Z.to_int z <> Decimal.Neg Decimal.Nil.
Proof.
  destruct z as [|p|p]; cbn; split; try discriminate;
    intro H; injection H as H;
    apply (f_equal Pos.of_uint) in H;
    rewrite DecimalPos.Unsigned.of_to in H; discriminate H.
Qed.

(** A numeral in a document stands for one number only. *)
Lemma of_int_inj (a b : Z) : Str.of_int a = Str.of_int b -> a = b.
Proof.
  unfold Str.of_int. intro H.
  apply (f_equal NilZero.int_of_string) in H.
  destruct (to_int_not_nil a) as [Ha1 Ha2], (to_int_not_nil b) as [Hb1 Hb2].
  rewrite !NilZero.isi in H by assumption.
  injection H as H. now apply DecimalZ.to_int_inj.
Qed.

(* ================================================================= *)
(** ** The names of the documents *)

Lemma contains_suffix (sub a b : string) :
  Str.contains sub b = true -> Str.contains sub (a ++ b) = true.
Proof.
  intro H. induction a as [|c a IH]; [exact H|].
  cbn [String.append Str.contains]. rewrite IH. apply orb_true_r.
Qed.

Lemma contains_middle (sub a b : string) :
  Str.contains sub (a ++ sub ++ b) = true.
Proof.
  apply contains_suffix. pose proof (prefix_app sub b) as H.
  destruct (sub ++ b); cbn [Str.contains]; now rewrite H.
Qed.

(** X1. Whatever the base name and the time, both names that
    [generate_output_filenames] returns carry the identifier, so
    [should_skip_item] skips the documents of every run and neither walk
    lets them through as files. *)
Theorem own_documents_are_skipped (base_name now : string) :
  should_skip_item (fst (generate_output_filenames base_name now))
    "29ph50JZ7" = true
  /\ should_skip_item (snd (generate_output_filenames base_name now))
       "29ph50JZ7" = true
  /\ keep_file run_identifier run_skip_items
       (fst (generate_output_filenames base_name now)) = false
  /\ keep_file run_identifier run_skip_items
       (snd (generate_output_filenames base_name now)) = false.
Proof.
  assert (H1 : Str.contains "29ph50JZ7"
                 (fst (generate_output_filenames base_name now)) = true).
  { cbn [generate_output_filenames fst].
    rewrite <- !append_assoc, (append_assoc _ "29ph50JZ7").
    apply contains_middle. }
  assert (H2 : Str.contains "29ph50JZ7"
                 (snd (generate_output_filenames base_name now)) = true).
  { cbn [generate_output_filenames snd].
    rewrite <- !append_assoc, (append_assoc _ "29ph50JZ7").
    apply contains_middle. }
  unfold keep_file, should_skip_item, run_identifier.
  rewrite H1, H2, !orb_true_r. repeat split; reflexivity.
Qed.

Lemma length_app (a b : string) :
  String.length (a ++ b) = String.length a + String.length b.
Proof. induction a as [|c a IH]; [reflexivity | cbn; now rewrite IH]. Qed.

Lemma append_split_by_length (a b c d : string) :
  String.length c = String.length d -> a ++ c = b ++ d -> a = b /\ c = d.
Proof.
  revert b. induction a as [|x a IH]; intros [|y b] Hl E; cbn in E.
  - now split.
  - exfalso. apply (f_equal String.length) in E.
    cbn in E. rewrite length_app in E. lia.
  - exfalso. apply (f_equal String.length) in E.
    cbn in E. rewrite length_app in E. lia.
  - injection E as -> E. destruct (IH b Hl E) as [-> ->]. now split.
Qed.

(** X2. The summary document and the lengths document never have the same
    name, also across runs, and for one base name runs at different times
    write to different names. *)
Theorem output_names_never_collide (base_name now now' : string) :
  fst (generate_output_filenames base_name now)
  <> snd (generate_output_filenames base_name now')
  /\ (fst (generate_output_filenames base_name now)
      = fst (generate_output_filenames base_name now') -> now = now')
  /\ (snd (generate_output_filenames base_name now)
      = snd (generate_output_filenames base_name now') -> now = now').
Proof.
  cbn [generate_output_filenames fst snd].
  repeat split; intro E; apply append_cancel_l in E;
    apply (append_cancel_l "_") in E;
    apply append_split_by_length in E; try reflexivity;
    destruct E as [E1 E2]; [discriminate E2 | exact E1 | exact E1].
Qed.

(* ================================================================= *)
(** ** More on the outline *)

Lemma replace_self (start : string) :
  Str.replace start start EmptyString = EmptyString.
Proof.
  destruct start as [|c start]; [reflexivity|].
  rewrite <- (append_nil_right (String c start)) at 1.
  apply replace_start; [discriminate | reflexivity].
Qed.

Lemma level_of_start (start : string) : level_of start start = 0.
Proof. unfold level_of. now rewrite replace_self. Qed.

(** X3. The line of the start directory is never indented and carries
    its base name, whatever the start path; an empty start directory gives
    that single line, or nothing when its name is hidden or in the skip
    set. *)
Theorem outline_of_empty_directory (w : world) :
  listing w = [] ->
  render_line (cwd w) (DirLine (cwd w))
  = Path.basename (cwd w) ++ "/" ++ nl
  /\ tree_of w
     = if negb (Str.mem (Path.basename (cwd w)) run_skip_items)
          && negb (Str.startswith (Path.basename (cwd w)) ".")
       then Path.basename (cwd w) ++ "/" ++ nl
       else EmptyString.
Proof.
  intro H.
  assert (Hr : render_line (cwd w) (DirLine (cwd w))
               = Path.basename (cwd w) ++ "/" ++ nl)
    by (cbn [render_line]; now rewrite level_of_start).
  split; [exact Hr|].
  rewrite tree_of_lines. unfold tree_lines, visited, walk. rewrite H.
  cbn [flat_map dir_names file_names app lines_of filter map].
  destruct (negb (Str.mem (Path.basename (cwd w)) run_skip_items)
            && negb (Str.startswith (Path.basename (cwd w)) "."));
    [|reflexivity].
  cbn [app map Str.cat fold_right]. rewrite Hr.
  now rewrite !append_assoc, !append_nil_right.
Qed.

Lemma outline_of_empty_directory_witness :
  listing (at_rest "/srv/empty" [] (fun _ => Fails 2)) = []
  /\ tree_of (at_rest "/srv/empty" [] (fun _ => Fails 2))
     = unlines ["empty/"].
Proof.
  split; [reflexivity|].
  rewrite (proj2 (outline_of_empty_directory
                    (at_rest "/srv/empty" [] (fun _ => Fails 2)) eq_refl)).
  reflexivity.
Defined.





(** X5. The walks visit exactly the directories reached from the start
    directory through names that are neither hidden nor in the skip set,
    and yield for each the names of its directories and of its files. *)
Theorem walks_visit_open_directories (w : world) (root : string)
  (dirs files : list string) :
  In (root, dirs, files) (visited w)
  <-> exists es,
        open_dir w root es /\ dirs = dir_names es /\ files = file_names es.
Proof.
  split.
  - apply visited_open.
  - intros (es & Ho & -> & ->). now apply open_visited.
Qed.

Lemma flat_map_chunk {A B} (g : A -> list B) (l : list A) (x : A) :
  In x l -> exists pre post, flat_map g l = (pre ++ g x ++ post)%list.
Proof.
  intro H. apply in_split in H. destruct H as (l1 & l2 & ->).
  exists (flat_map g l1), (flat_map g l2).
  rewrite flat_map_app. reflexivity.
Qed.

(** X6. Every directory the walk reaches whose base name is neither hidden
    nor in the skip set has its line in the outline, directly followed by
    the lines of its files that are let through, in listing order. *)
Theorem outline_lists_directory_with_its_files (w : world) (root : string)
  (es : list node) :
  open_dir w root es -> dir_ok (Path.basename root) ->
  exists pre post,
    tree_of w
    = pre
      ++ (render_line (cwd w) (DirLine root)
          ++ Str.cat
               (map (fun f => render_line (cwd w) (FileLine root f))
                  (filter (keep_file run_identifier run_skip_items)
                     (file_names es))))
      ++ post.
Proof.
  intros Ho Hb. apply open_visited in Ho.
  destruct (flat_map_chunk lines_of (visited w) _ Ho) as (l1 & l2 & E).
  rewrite (lines_of_shown _ _ _ Hb) in E.
  exists (Str.cat (map (render_line (cwd w)) l1)),
         (Str.cat (map (render_line (cwd w)) l2)).
  rewrite tree_of_lines. unfold tree_lines. rewrite E.
  rewrite !List.map_app, !cat_app. cbn [map Str.cat fold_right].
  now rewrite List.map_map.
Qed.

Lemma outline_lists_directory_with_its_files_witness :
  exists pre post,
    tree_of scenario_world
    = pre ++ ("    sub/" ++ nl ++ "        b.txt" ++ nl) ++ post.
Proof.
  destruct (outline_lists_directory_with_its_files scenario_world
              "/home/user/project/sub" [File "b.txt"])
    as (pre & post & E).
  - exists ["sub"]. split; [reflexivity|]. split.
    + eapply dir_below; [right; right; now left | constructor].
    + repeat constructor. intros [H|[H|[]]]; discriminate H.
  - split; [reflexivity|]. intros [H|[H|[]]]; discriminate H.
  - exists pre, post. rewrite E. reflexivity.
Defined.

(* ================================================================= *)
(** ** More on appending and on the run *)

(** X7. [append_file_content] keeps what the output file holds and adds to
    its end: the whole block when the file can be read and decoded, and
    otherwise the header only, the exception leaving the function.  A
    missing output file is created, and no other file changes. *)
Theorem append_file_content_appends (w : world) (filepath output_file : string)
  (s : store) :
  exists s',
    append_file_content w filepath output_file s
    = (s', match read_text (read_append w filepath) with
           | Ret _ => Ret tt
           | Raise e => Raise e
           end)
    /\ same_but output_file s s'
    /\ s' output_file
       = Some (content s output_file
               ++ match read_text (read_append w filepath) with
                  | Ret text => header w filepath ++ text ++ trailer
                  | Raise _ => header w filepath
                  end).
Proof.
  unfold append_file_content, bind, open_a, write, lift.
  rewrite !content_upd. fold (header w filepath). fold trailer.
  destruct (read_text (read_append w filepath)) as [t|e]; cbv beta iota.
  - eexists. split; [reflexivity|]. split.
    + intros n Hn. now rewrite !upd_other.
    + rewrite upd_same, !content_upd. now rewrite !append_assoc.
  - eexists. split; [reflexivity|]. split.
    + intros n Hn. now rewrite !upd_other.
    + now rewrite upd_same.
Qed.

(** X8. A run changes no file but its two documents, and what files of
    those names held before the run is not kept: the summary document
    starts with the outline. *)
Theorem main_writes_only_its_documents (w : world) (now : string)
  (s0 : store) :
  exists s' r rest,
    main w now s0 = (s', r)
    /\ (forall n, n <> summary_name now -> n <> lengths_name now ->
                  s' n = s0 n)
    /\ s' (summary_name now) = Some (tree_of w ++ rest).
Proof.
  destruct (main_spec w now s0) as (s' & E & HS & _ & Ho).
  exists s'. eexists. eexists. split; [exact E|]. split; [exact Ho|].
  exact HS.
Qed.

(** X9. A run that returns has measured and read a second time every
    candidate whose first reading was well-formed UTF-8: the request for
    the size was answered, and the second reading gave well-formed UTF-8
    again. *)
Theorem returning_run_handled_every_text (w : world) (now : string)
  (s0 s' : store) (p bytes : string) :
  main w now s0 = (s', Ret tt) ->
  In p (candidates w) ->
  read_classify w p = Gives bytes -> Codec.utf8_valid bytes = true ->
  (exists size, stat_size w p = Gives size)
  /\ (exists again,
        read_append w p = Gives again
        /\ Codec.utf8_valid again = true).
Proof.
  intros Hm Hc Hr Hv. apply main_completed in Hm. destruct Hm as (Hall & _).
  assert (Hp : In p (texts w)).
  { apply filter_In. split; [exact Hc|].
    unfold is_text, is_text_file, read_text. now rewrite Hr, Hv. }
  rewrite Forall_forall in Hall.
  destruct (failure_none_text w p (Hall p Hp)) as [Hread Hsize].
  destruct (read_text_ret _ _ Hread) as (again & Hagain & Hvalid & _).
  split; [now exists (size_of w p) | now exists again].
Qed.

Lemma returning_run_handled_every_text_witness :
  main scenario_world sample_now no_files
  = (fst (main scenario_world sample_now no_files), Ret tt)
  /\ (exists size,
        stat_size scenario_world "/home/user/project/sub/b.txt"
        = Gives size)
  /\ (exists again,
        read_append scenario_world "/home/user/project/sub/b.txt"
        = Gives again
        /\ Codec.utf8_valid again = true).
Proof.
  assert (H : main scenario_world sample_now no_files
              = (fst (main scenario_world sample_now no_files), Ret tt))
    by (vm_compute; reflexivity).
  split; [exact H|].
  apply (returning_run_handled_every_text scenario_world sample_now
           no_files _ "/home/user/project/sub/b.txt" "world!" H).
  - vm_compute. right. now left.
  - reflexivity.
  - reflexivity.
Defined.

(** X10. When the request for the size of a text file fails, every
    earlier text file having been handled, the [OSError] leaves [main]
    before anything is written for that file: the summary document ends
    with the last whole block, and the lengths document is not touched. *)
Theorem size_failure_aborts (w : world) (now : string) (s0 : store)
  (ps1 ps2 : list string) (p : string) (errno : nat) :
  texts w = (ps1 ++ p :: ps2)%list ->
  Forall (handled w) ps1 ->
  stat_size w p = Fails errno ->
  exists s',
    main w now s0 = (s', Raise (OSError errno))
    /\ s' (summary_name now)
       = Some (tree_of w ++ Str.cat (map (block w) ps1))
    /\ s' (lengths_name now) = s0 (lengths_name now).
Proof.
  intros Ht H1 Hn.
  destruct (main_spec w now s0) as (s' & E & HS & HL & _).
  assert (Hf : failure w p = Some (OSError errno, EmptyString))
    by (unfold failure; now rewrite Hn).
  rewrite Ht, (run_texts_stopped w ps1 ps2 p _ _ H1 Hf) in E, HS, HL.
  cbn [fst snd] in *. rewrite append_nil_right in HS. exists s'. auto.
Qed.

Lemma size_failure_aborts_witness :
  exists s',
    main unmeasurable_world sample_now no_files = (s', Raise (OSError 2))
    /\ s' (summary_name sample_now)
       = Some (tree_of unmeasurable_world
               ++ Str.cat (map (block unmeasurable_world)
                             ["/home/user/project/a.txt"]))
    /\ s' (lengths_name sample_now) = no_files (lengths_name sample_now).
Proof.
  apply (size_failure_aborts unmeasurable_world sample_now no_files
           ["/home/user/project/a.txt"] [] "/home/user/project/b.txt" 2).
  - vm_compute. reflexivity.
  - constructor; [vm_compute; reflexivity | constructor].
  - reflexivity.
Defined.

Lemma sum_lengths_perm (l l' : list record) :
  Permutation l l' -> sum_lengths l = sum_lengths l'.
Proof.
  intro H. rewrite !sum_lengths_fold_right.
  induction H as [|x l l' _ IH|x y l|l l' l'' _ IH1 _ IH2]; cbn [map fold_right];
    lia.
Qed.

Lemma at_rest_record (start : string) (es : list node)
  (bytes : string -> answer string) (p : string) :
  is_text (at_rest start es bytes) p = true ->
  exists b,
    bytes p = Gives b
    /\ record_of (at_rest start es bytes) p
       = (Z.of_nat (String.length b), p).
Proof.
  unfold is_text, is_text_file, record_of, size_of.
  cbn [at_rest read_classify stat_size].
  destruct (bytes p) as [errno|b]; [discriminate|].
  intros _. now exists b.
Qed.

(** X11. In a file system at rest, a run that returns has written a
    lengths document whose records carry the number of bytes of their
    files and whose total is the sum of the sizes of the text files in the
    order of the walk: sorting does not change the total. *)
Theorem quiet_run_records_byte_lengths (start : string) (es : list node)
  (bytes : string -> answer string) (now : string) (s0 s' : store) :
  main (at_rest start es bytes) now s0 = (s', Ret tt) ->
  s' (lengths_name now)
  = Some (lengths_text (at_rest start es bytes)
            (fold_right Z.add 0%Z
               (map (size_of (at_rest start es bytes))
                  (texts (at_rest start es bytes))))
            (listed (at_rest start es bytes)))
  /\ forall r, In r (listed (at_rest start es bytes)) ->
       exists b, bytes (snd r) = Gives b
                 /\ fst r = Z.of_nat (String.length b).
Proof.
  intro Hm. apply main_completed in Hm. destruct Hm as (_ & _ & HL).
  split.
  - rewrite HL. f_equal. f_equal. unfold listed.
    rewrite (sum_lengths_perm _ _ (sort_desc_perm _)).
    rewrite sum_lengths_fold_right, List.map_map. reflexivity.
  - intros r Hr. apply listed_texts in Hr. destruct Hr as [Hin Er].
    unfold texts in Hin. apply filter_In in Hin. destruct Hin as [_ Ht].
    destruct (at_rest_record _ _ _ _ Ht) as (b & Hb & Eb).
    exists b. split; [exact Hb|]. rewrite Er, Eb. reflexivity.
Qed.

Lemma quiet_run_records_byte_lengths_witness :
  main before_first_run sample_now no_files
  = (fst (main before_first_run sample_now no_files), Ret tt)
  /\ listed before_first_run
     = [(6%Z, "/home/user/project/sub/b.txt");
        (5%Z, "/home/user/project/a.txt")]
  /\ forall r, In r (listed before_first_run) ->
       exists b, scenario_bytes (snd r) = Gives b
                 /\ fst r = Z.of_nat (String.length b).
Proof.
  assert (H : main before_first_run sample_now no_files
              = (fst (main before_first_run sample_now no_files), Ret tt))
    by (vm_compute; reflexivity).
  split; [exact H|]. split; [vm_compute; reflexivity|].
  exact (proj2 (quiet_run_records_byte_lengths "/home/user/project" _
                  scenario_bytes sample_now no_files _ H)).
Defined.

(** X12. In a run that completes, every file that is let through, lies in
    a directory the walk reaches and is classified as text has its block
    in the summary document and its record in the lengths document. *)
Theorem text_files_are_embedded_and_listed (w : world) (now : string)
  (s0 s' : store) (p : string) :
  main w now s0 = (s', Ret tt) ->
  accepted w p -> is_text w p = true ->
  (exists pre post,
     s' (summary_name now) = Some (pre ++ block w p ++ post))
  /\ (exists pre post,
        s' (lengths_name now)
        = Some (pre ++ entry w (record_of w p) ++ post)).
Proof.
  intros Hm Ha Ht. apply main_completed in Hm.
  destruct Hm as (_ & HS & HL).
  assert (Hp : In p (texts w))
    by (apply filter_In; split; [now apply candidates_accepted | exact Ht]).
  split.
  - destruct (cat_In (map (block w) (texts w)) (block w p))
      as (pre & post & E); [now apply in_map|].
    exists (tree_of w ++ pre), post. rewrite HS, E.
    now rewrite !append_assoc.
  - destruct (cat_In (map (entry w) (listed w)) (entry w (record_of w p)))
      as (pre & post & E).
    { apply in_map. unfold listed.
      apply (Permutation_in _ (Permutation_sym (sort_desc_perm _))).
      now apply in_map. }
    exists ("Total Length: " ++ Str.of_int (sum_lengths (listed w))
            ++ nl ++ nl ++ pre), post.
    rewrite HL. unfold lengths_text. rewrite E.
    now rewrite !append_assoc.
Qed.

Lemma text_files_are_embedded_and_listed_witness :
  main scenario_world sample_now no_files
  = (fst (main scenario_world sample_now no_files), Ret tt)
  /\ exists pre post,
       fst (main scenario_world sample_now no_files)
         (lengths_name sample_now)
       = Some (pre ++ ("sub/b.txt" ++ nl ++ "6" ++ nl ++ nl) ++ post).
Proof.
  assert (H : main scenario_world sample_now no_files
              = (fst (main scenario_world sample_now no_files), Ret tt))
    by (vm_compute; reflexivity).
  split; [exact H|].
  destruct (text_files_are_embedded_and_listed scenario_world sample_now
              no_files _ "/home/user/project/sub/b.txt" H)
    as (_ & pre & post & E).
  - exists "/home/user/project/sub", [File "b.txt"], "b.txt".
    split; [|split; [now left|split; [|reflexivity]]].
    + exists ["sub"]. split; [reflexivity|]. split.
      * eapply dir_below; [right; right; now left | constructor].
      * repeat constructor. intros [F|[F|[]]]; discriminate F.
    + split; [reflexivity|]. split; [reflexivity|].
      intros [F|[F|[]]]; discriminate F.
  - reflexivity.
  - exists pre, post. rewrite E. reflexivity.
Defined.



(* ================================================================= *)
(** ** Runs that see the same directory *)

Lemma enter_without_outputs (keep : string -> bool) (top : string)
  (es : list node) :
  flat_map (enter keep top) (without_outputs es)
  = flat_map (enter keep top) es.
Proof.
  induction es as [|e es IH]; [reflexivity|].
  unfold without_outputs in *. cbn [filter flat_map].
  destruct e as [n|n sub|n]; cbn [own_output negb];
    try (cbn [flat_map]; now rewrite IH).
  destruct (Str.contains run_identifier n); cbn [negb flat_map enter app];
    exact IH.
Qed.

Lemma kept_files_without_outputs (es : list node) :
  filter (keep_file run_identifier run_skip_items)
    (file_names (without_outputs es))
  = filter (keep_file run_identifier run_skip_items) (file_names es).
Proof.
  induction es as [|e es IH]; [reflexivity|].
  unfold without_outputs in *. cbn [filter].
  destruct e as [n|n sub|n]; cbn [own_output negb];
    try (cbn [file_names flat_map app] in *; exact IH).
  destruct (Str.contains run_identifier n) eqn:E; cbn [negb].
  - change (file_names (File n :: es)) with (n :: file_names es).
    cbn [filter]. unfold keep_file at 2, should_skip_item.
    rewrite E, orb_true_r. exact IH.
  - change (file_names (File n :: filter (fun e => negb (own_output e)) es))
      with (n :: file_names (filter (fun e => negb (own_output e)) es)).
    change (file_names (File n :: es)) with (n :: file_names es).
    cbn [filter]. now rewrite IH.
Qed.

(** Files whose names carry the identifier change neither the outline nor
    the candidates, wherever the listing has them. *)
Lemma walk_without_outputs (top : string) (es : list node) :
  flat_map files_of (walk (keep_dir run_skip_items) top (without_outputs es))
  = flat_map files_of (walk (keep_dir run_skip_items) top es)
  /\ flat_map lines_of
       (walk (keep_dir run_skip_items) top (without_outputs es))
     = flat_map lines_of (walk (keep_dir run_skip_items) top es).
Proof.
  unfold walk. cbn [flat_map]. rewrite enter_without_outputs.
  unfold files_of at 1 3, lines_of at 1 3.
  now rewrite kept_files_without_outputs.
Qed.

Section SameDirectory.

Variables w1 w2 : world.
Hypothesis same_cwd : cwd w1 = cwd w2.
Hypothesis same_listing :
  without_outputs (listing w1) = without_outputs (listing w2).
Hypothesis same_classification :
  forall p, In p (candidates w1) -> read_classify w1 p = read_classify w2 p.
Hypothesis same_answers :
  forall p, In p (texts w1) ->
    stat_size w1 p = stat_size w2 p /\ read_append w1 p = read_append w2 p.

Lemma same_candidates : candidates w1 = candidates w2.
Proof.
  unfold candidates, visited.
  rewrite <- (proj1 (walk_without_outputs (cwd w1) (listing w1))).
  rewrite <- (proj1 (walk_without_outputs (cwd w2) (listing w2))).
  now rewrite same_cwd, same_listing.
Qed.

Lemma same_tree : tree_of w1 = tree_of w2.
Proof.
  rewrite !tree_of_lines. unfold tree_lines, visited.
  rewrite <- (proj2 (walk_without_outputs (cwd w1) (listing w1))).
  rewrite <- (proj2 (walk_without_outputs (cwd w2) (listing w2))).
  now rewrite same_cwd, same_listing.
Qed.

Lemma same_texts : texts w1 = texts w2.
Proof.
  unfold texts. rewrite <- same_candidates. apply filter_ext_in.
  intros p Hp. unfold is_text, is_text_file.
  now rewrite (same_classification p Hp).
Qed.

Lemma same_run_texts (ps : list string) :
  incl ps (texts w1) -> run_texts w1 ps = run_texts w2 ps.
Proof.
  induction ps as [|p ps IH]; intro Hi; [reflexivity|].
  assert (Hp : In p (texts w1)) by (apply Hi; now left).
  destruct (same_answers p Hp) as [Hs Ha].
  cbn [run_texts]. unfold failure, block, header, text_of.
  rewrite Hs, Ha, same_cwd, IH; [reflexivity|].
  intros q Hq. apply Hi. now right.
Qed.

Lemma same_records (ps : list string) :
  incl ps (texts w1) -> map (record_of w1) ps = map (record_of w2) ps.
Proof.
  intro Hi. apply map_ext_in. intros p Hp.
  unfold record_of, size_of. now rewrite (proj1 (same_answers p (Hi p Hp))).
Qed.

Lemma same_lengths_text (total : Z) (recs : list record) :
  lengths_text w1 total recs = lengths_text w2 total recs.
Proof.
  unfold lengths_text. do 5 f_equal. apply map_ext. intro r.
  unfold entry. now rewrite same_cwd.
Qed.

(** Two runs that see the same directory end alike and write the same
    documents. *)
Lemma runs_agree (now1 now2 : string) (s1 s2 : store) :
  exists s1' s2' r,
    main w1 now1 s1 = (s1', r) /\ main w2 now2 s2 = (s2', r)
    /\ s1' (summary_name now1) = s2' (summary_name now2)
    /\ (r = Ret tt ->
        s1' (lengths_name now1) = s2' (lengths_name now2)).
Proof.
  destruct (main_spec w1 now1 s1) as (s1' & E1 & S1 & L1 & _).
  destruct (main_spec w2 now2 s2) as (s2' & E2 & S2 & L2 & _).
  assert (Hr : run_texts w1 (texts w1) = run_texts w2 (texts w2))
    by (rewrite <- same_texts; apply same_run_texts, incl_refl).
  assert (Hl : listed w1 = listed w2).
  { unfold listed. rewrite <- same_texts.
    now rewrite (same_records _ (incl_refl _)). }
  rewrite <- Hr in E2, S2, L2. rewrite <- Hl, <- same_tree in *.
  rewrite <- same_lengths_text in L2.
  exists s1', s2'. eexists. split; [exact E1|]. split; [exact E2|].
  split; [now rewrite S1, S2|].
  intro H. rewrite L1, L2.
  destruct (snd (run_texts w1 (texts w1))); [discriminate H | reflexivity].
Qed.

End SameDirectory.

(** X14. Running the program again: when the start directory has changed
    only by files whose names carry the identifier, such as the documents
    of the first run, and every request is answered as before, the second
    run ends as the first did, and its summary and lengths documents have
    the contents of the first run's, under the names of the second. *)
Theorem second_run_repeats_first (w1 w2 : world) (now1 now2 : string)
  (s1 s2 : store) :
  cwd w1 = cwd w2 ->
  without_outputs (listing w1) = without_outputs (listing w2) ->
  (forall p, read_classify w1 p = read_classify w2 p) ->
  (forall p, stat_size w1 p = stat_size w2 p) ->
  (forall p, read_append w1 p = read_append w2 p) ->
  exists s1' s2' r,
    main w1 now1 s1 = (s1', r) /\ main w2 now2 s2 = (s2', r)
    /\ s1' (summary_name now1) = s2' (summary_name now2)
    /\ (r = Ret tt ->
        s1' (lengths_name now1) = s2' (lengths_name now2)).
Proof.
  intros Hc Hl H1 H2 H3. apply runs_agree; auto.
Qed.

Lemma second_run_repeats_first_witness :
  exists s1' s2' r,
    main before_first_run sample_now no_files = (s1', r)
    /\ main after_first_run "2024_01_02_03_05_00" s1' = (s2', r)
    /\ s1' (summary_name sample_now)
       = s2' (summary_name "2024_01_02_03_05_00")
    /\ (r = Ret tt ->
        s1' (lengths_name sample_now)
        = s2' (lengths_name "2024_01_02_03_05_00")).
Proof.
  destruct (second_run_repeats_first before_first_run after_first_run
              sample_now "2024_01_02_03_05_00" no_files
              (fst (main before_first_run sample_now no_files)))
    as (s1' & s2' & r & E1 & E2 & HS & HL); try reflexivity.
  assert (E : s1' = fst (main before_first_run sample_now no_files))
    by now rewrite E1.
  exists s1', s2', r. rewrite E at 2. auto.
Defined.



(* ================================================================= *)
(** ** The paths in the documents *)





(* ================================================================= *)
(** ** More on the classifier *)

Lemma ascii_only_valid (s : string) :
  ascii_only s = true -> Codec.utf8_valid s = true.
Proof.
  induction s as [|c s IH]; [reflexivity|].
  cbn [ascii_only Codec.utf8_valid]. intro H.
  apply andb_true_iff in H. destruct H as [Hc Hs]. now rewrite Hc, IH.
Qed.

(** X17. A file that can be read and holds only bytes below 128, the
    empty file among them, is classified as text. *)
Theorem ascii_files_are_text (w : world) (filepath bytes : string) :
  read_classify w filepath = Gives bytes -> ascii_only bytes = true ->
  is_text_file w filepath = Ret true.
Proof.
  intros Hr Ha. unfold is_text_file, read_text.
  now rewrite Hr, (ascii_only_valid _ Ha).
Qed.

Lemma ascii_files_are_text_witness :
  is_text_file scenario_world "/home/user/project/a.txt" = Ret true
  /\ is_text_file (at_rest "/tmp" [File "empty"] (fun _ => Gives EmptyString))
       "/tmp/empty" = Ret true.
Proof.
  split.
  - apply (ascii_files_are_text scenario_world _ "hello"); reflexivity.
  - apply (ascii_files_are_text _ _ EmptyString); reflexivity.
Defined.

Section InvalidBytes.

Lemma byte_in_range (lo hi : N) (c : ascii) :
  Codec.byte_in lo hi c = true ->
  (lo <= N_of_ascii c)%N /\ (N_of_ascii c <= hi)%N.
Proof.
  unfold Codec.byte_in. rewrite andb_true_iff, !N.leb_le. tauto.
Qed.

Lemma byte_in_allowed (lo hi : N) (c : ascii) :
  Codec.byte_in lo hi c = true ->
  ((hi < 192)%N \/ (194 <= lo /\ hi <= 244)%N) ->
  never_in_utf8 c = false.
Proof.
  intros H Hb. apply byte_in_range in H. unfold never_in_utf8.
  apply orb_false_iff. unfold Codec.byte_in.
  rewrite !andb_false_iff, !N.leb_gt. lia.
Qed.

Ltac use_allowed :=
  repeat match goal with
         | H : Codec.byte_in _ _ ?c = true |- context [never_in_utf8 ?c] =>
             rewrite (byte_in_allowed _ _ _ H) by lia
         | H : Codec.cont ?c = true |- context [never_in_utf8 ?c] =>
             rewrite (byte_in_allowed _ _ _ H) by lia
         end.

Lemma valid_has_no_forbidden_byte (n : nat) :
  forall s, String.length s <= n -> Codec.utf8_valid s = true ->
  has_byte never_in_utf8 s = false.
Proof.
  induction n as [|n IH]; intros s Hl Hv.
  - destruct s; [reflexivity | cbn in Hl; lia].
  - destruct s as [|b0 s1]; [reflexivity|].
    cbn [String.length] in Hl. cbn [Codec.utf8_valid] in Hv.
    cbn [has_byte].
    destruct (Codec.byte_in 0 127 b0) eqn:E0.
    { use_allowed. apply IH; [lia | exact Hv]. }
    destruct s1 as [|b1 s2]; [discriminate|].
    cbn [String.length] in Hl. cbn [has_byte].
    destruct (Codec.byte_in 194 223 b0) eqn:E1.
    { rewrite !andb_true_iff in Hv. destruct Hv as [H1 Hv].
      use_allowed. apply IH; [lia | exact Hv]. }
    destruct s2 as [|b2 s3]; [discriminate|].
    cbn [String.length] in Hl. cbn [has_byte].
    destruct (Codec.byte_in 224 224 b0) eqn:E2.
    { rewrite !andb_true_iff in Hv. destruct Hv as [[H1 H2] Hv].
      use_allowed. apply IH; [lia | exact Hv]. }
    destruct (Codec.byte_in 225 236 b0) eqn:E3a.
    { cbn [orb] in Hv.
      rewrite !andb_true_iff in Hv. destruct Hv as [[H1 H2] Hv].
      use_allowed. apply IH; [lia | exact Hv]. }
    cbn [orb] in Hv.
    destruct (Codec.byte_in 238 239 b0) eqn:E3b.
    { rewrite !andb_true_iff in Hv. destruct Hv as [[H1 H2] Hv].
      use_allowed. apply IH; [lia | exact Hv]. }
    destruct (Codec.byte_in 237 237 b0) eqn:E4.
    { rewrite !andb_true_iff in Hv. destruct Hv as [[H1 H2] Hv].
      use_allowed. apply IH; [lia | exact Hv]. }
    destruct s3 as [|b3 s4]; [discriminate|].
    cbn [String.length] in Hl. cbn [has_byte].
    destruct (Codec.byte_in 240 240 b0) eqn:E5.
    { rewrite !andb_true_iff in Hv. destruct Hv as [[[H1 H2] H3] Hv].
      use_allowed. apply IH; [lia | exact Hv]. }
    destruct (Codec.byte_in 241 243 b0) eqn:E6.
    { rewrite !andb_true_iff in Hv. destruct Hv as [[[H1 H2] H3] Hv].
      use_allowed. apply IH; [lia | exact Hv]. }
    destruct (Codec.byte_in 244 244 b0) eqn:E7; [|discriminate].
    rewrite !andb_true_iff in Hv. destruct Hv as [[[H1 H2] H3] Hv].
    use_allowed. apply IH; [lia | exact Hv].
Qed.

End InvalidBytes.

(** X18. A file that holds one of the bytes [0xC0], [0xC1] or [0xF5] to
    [0xFF] anywhere is classified as no text, whatever else it holds. *)
Theorem forbidden_byte_is_not_text (w : world) (filepath bytes : string) :
  read_classify w filepath = Gives bytes ->
  has_byte never_in_utf8 bytes = true ->
  is_text_file w filepath = Ret false.
Proof.
  intros Hr Hb. unfold is_text_file, read_text. rewrite Hr.
  destruct (Codec.utf8_valid bytes) eqn:E; [|reflexivity].
  apply (valid_has_no_forbidden_byte _ _ (le_n _)) in E.
  rewrite E in Hb. discriminate Hb.
Qed.

Lemma forbidden_byte_is_not_text_witness :
  is_text_file binary_world "/home/user/project/logo.png" = Ret false.
Proof.
  apply (forbidden_byte_is_not_text binary_world _
           (String "137" (String "255" EmptyString))); reflexivity.
Defined.

(* ================================================================= *)
(** ** More on sorting *)

Lemma sort_desc_fixes_sorted (l : list record) :
  Sorted not_smaller l -> sort_desc l = l.
Proof.
  induction 1 as [|x l Hs IH Hh]; [reflexivity|].
  cbn [sort_desc]. rewrite IH. destruct Hh as [|y l Hxy]; [reflexivity|].
  cbn [insert_desc]. unfold not_smaller in Hxy.
  apply Z.leb_le in Hxy. now rewrite Hxy.
Qed.

(** X19. Sorting the records neither drops, adds nor changes one; records
    already in non-increasing order of size stay as they are, so sorting
    twice is sorting once. *)
Theorem sort_desc_keeps_records (l : list record) :
  Permutation (sort_desc l) l
  /\ (Sorted not_smaller l -> sort_desc l = l)
  /\ sort_desc (sort_desc l) = sort_desc l.
Proof.
  split; [apply sort_desc_perm|]. split; [apply sort_desc_fixes_sorted|].
  apply sort_desc_fixes_sorted, sort_desc_sorted.
Qed.

(* ================================================================= *)
(** ** What is embedded *)





Example carriage_returns_become_line_feeds :
  Codec.universal_newlines
    (String "a" (String Codec.CR (String Codec.LF
       (String "b" (String Codec.CR (String "c" EmptyString))))))
  = String "a" (String Codec.LF
       (String "b" (String Codec.LF (String "c" EmptyString)))).
Proof. reflexivity. Qed.
